(** * SupabaseStorage: the data-access adapter of server/storage-supabase.ts

    The adapter turns each method call into one statement of the query
    builder, run against the relational store.  The development below
    embeds

    - the JavaScript values the adapter handles itself (payload objects,
      truthiness tests, [new Date(..)], the reduction of
      [getMonthlyParticipation]);
    - the store as four tables and their id sequences, with the statements
      the adapter issues (select / where / orderBy / limit, insert, update,
      delete) as functions on that state;
    - the methods of [SupabaseStorage], written in a state-and-error monad
      in the order of the source.

    Embedded methods: getUser, getUserByEmail, createUser, getCampus,
    getAllCampuses, createCampus, updateCampus, getEvent,
    getEventsByCampus, getEventsInDateRange, createEvent, updateEvent,
    deleteEvent, getChatHistory, getEventTypeDistribution,
    getMonthlyParticipation, getTopRatedEvents.

    Modelling notes.
    - A JavaScript number is an integer ([Z]); NaN and fractions are left
      out.  A [Date] is its time value in milliseconds since the epoch, or
      no time value at all (an invalid date).
    - The query builder and the store are dependencies of the adapter,
      not part of it.  Their statements are given their documented
      meaning: [where] filters, [orderBy] sorts, [limit] truncates,
      [set] and [values] skip properties that are [undefined], NOT NULL,
      primary-key and foreign-key constraints are checked row by row.
    - The store rejects a statement with a parameter it cannot take: an
      integer outside 32 bits, a timestamp outside the years 0001 to 9999,
      text holding the NUL character.  This is modelled for the statements
      on users and events keyed by id or email, for the date-range query
      and for the rows written to users and events, where a payload may
      also carry its own [id].  The statements on campuses and chat
      sessions and the queries keyed by [campusId] or [userId] alone are
      modelled for parameters the store takes, and a campus payload for its
      [name].
    - A payload property of the wrong JavaScript type for its column is
      rejected.  The store would read a numeral given as a string; payloads
      here give numbers as numbers.
    - A query without [orderBy] returns rows in table order; [orderBy] is a
      stable sort.  The store promises neither, and no theorem below
      depends on them.
    - A row count passed to [limit] is a natural number.
    - A call is one statement and runs atomically; connection failures are
      not modelled. *)

From Stdlib Require Import ZArith String List Sorted Permutation Lia.
From stdpp Require Import base option list strings gmap sorting.

Local Open Scope Z_scope.

(** ** JavaScript values *)

Module Js.

Inductive value :=
| Undefined
| Null
| Bool (b : bool)
| Num (n : Z)
| Str (s : string)
| DateObj (t : option Z).

(** [v ? a : b] and [v || d] test [ToBoolean v].  A Date object is
    truthy whatever its time value. *)
Definition ToBoolean (v : value) : bool :=
  match v with
  | Undefined | Null => false
  | Bool b => b
  | Num n => negb (n =? 0)
  | Str s => negb (String.eqb s "")
  | DateObj _ => true
  end.

(** An object literal / payload.  Reading a property that is not there
    gives [undefined]. *)
Abbreviation object := (gmap string value).

Definition get (o : object) (k : string) : value :=
  default Undefined (o !! k).

Definition is_undefined (v : value) : bool :=
  match v with
  | Undefined => true
  | _ => false
  end.

(** Time values outside +-8.64e15 ms are not representable. *)
Definition TimeClip (t : Z) : option Z :=
  if Z.abs t <=? 8640000000000000 then Some t else None.

(** The time value of [new Date(v)].  [parse] is [Date.parse], whose
    result on strings is left to the runtime. *)
Definition new_Date (parse : string → option Z) (v : value) : option Z :=
  match v with
  | Undefined => None
  | Null => Some 0
  | Bool b => Some (if b then 1 else 0)
  | Num n => TimeClip n
  | Str s => parse s
  | DateObj t => t
  end.

(** *** Calendar fields of a time value (ECMAScript, Date objects) *)

Inductive Month :=
| January | February | March | April | May | June
| July | August | September | October | November | December.

Definition msPerDay : Z := 86400000.

Definition Day (t : Z) : Z := t / msPerDay.

Definition DaysInYear (y : Z) : Z :=
  if negb (y mod 4 =? 0) then 365
  else if negb (y mod 100 =? 0) then 366
  else if negb (y mod 400 =? 0) then 365
  else 366.

Definition DayFromYear (y : Z) : Z :=
  365 * (y - 1970) + (y - 1969) / 4 - (y - 1901) / 100 + (y - 1601) / 400.

(** The year holding day number [d]: the largest [y] with
    [DayFromYear y <= d], computed through the 400-year cycle counted
    from 1 March 0000. *)
Definition YearFromDay (d : Z) : Z :=
  let z := d + 719468 in
  let era := z / 146097 in
  let doe := z - era * 146097 in
  let yoe := (doe - doe / 1460 + doe / 36524 - doe / 146096) / 365 in
  let doy := doe - (365 * yoe + yoe / 4 - yoe / 100) in
  let y := yoe + era * 400 in
  if doy <? 306 then y else y + 1.

Definition YearFromTime (t : Z) : Z := YearFromDay (Day t).

Definition InLeapYear (t : Z) : Z :=
  if DaysInYear (YearFromTime t) =? 366 then 1 else 0.

Definition DayWithinYear (t : Z) : Z :=
  Day t - DayFromYear (YearFromTime t).

Definition MonthFromTime (t : Z) : Month :=
  let d := DayWithinYear t in
  let leap := InLeapYear t in
  if d <? 31 then January
  else if d <? 59 + leap then February
  else if d <? 90 + leap then March
  else if d <? 120 + leap then April
  else if d <? 151 + leap then May
  else if d <? 181 + leap then June
  else if d <? 212 + leap then July
  else if d <? 243 + leap then August
  else if d <? 273 + leap then September
  else if d <? 304 + leap then October
  else if d <? 334 + leap then November
  else December.

(** A [Record<string, number>] built by assignment: keys in insertion
    order, [Object.entries] lists them in that order.  Keys here are
    month names, never array-index-like strings. *)
Definition record := list (string * Z).

Fixpoint record_get (o : record) (k : string) : option Z :=
  match o with
  | [] => None
  | (k', v) :: o' => if String.eqb k' k then Some v else record_get o' k
  end.

Fixpoint record_set (o : record) (k : string) (v : Z) : record :=
  match o with
  | [] => [(k, v)]
  | (k', v') :: o' =>
      if String.eqb k' k then (k', v) :: o' else (k', v') :: record_set o' k v
  end.

(** [x || 0] on a number-or-absent value. *)
Definition or_zero (x : option Z) : Z :=
  match x with
  | Some n => n
  | None => 0
  end.

End Js.

(** ** The relational store *)

(** Modelled from the spec: the row types of [@shared/schema], which is
    not part of the sources.  Each table carries the attributes the
    specification's data model names; keys are integers.  Times are
    millisecond time values; a nullable column is an [option]. *)
Module users.
Record row := mk { id : Z; email : string }.
End users.

Module campuses.
Record row := mk { id : Z; name : string }.
End campuses.

Module events.
Record row := mk {
  id : Z;
  campusId : Z;
  programType : string;
  dateTime : Z;
  endDateTime : option Z;
  participantCount : option Z;
  rating : option Z
}.
End events.

Module chatSessions.
Record row := mk { id : Z; userId : Z; createdAt : Z }.
End chatSessions.

Abbreviation User := users.row.
Abbreviation Campus := campuses.row.
Abbreviation Event := events.row.
Abbreviation ChatSession := chatSessions.row.

Record Database := mkDatabase {
  tbl_users : list User;
  tbl_campuses : list Campus;
  tbl_events : list Event;
  tbl_chatSessions : list ChatSession;
  seq_campuses : Z;
  seq_events : Z
}.

(** *** Failures and the statement monad *)

Inductive error :=
| TypeMismatch (column : string)
| InvalidTimeValue
| NoValuesToSet
| SyntaxError
| OutOfRange (type : string)
| InvalidByteSequence
| NotNullViolation (column : string)
| UniqueViolation (column : string)
| ForeignKeyViolation.

Inductive outcome (A : Type) :=
| Returned (a : A)
| Thrown (e : error).
Arguments Returned {A} a.
Arguments Thrown {A} e.

#[global] Instance outcome_ret : MRet outcome := λ A a, Returned a.
#[global] Instance outcome_bind : MBind outcome := λ A B f m,
  match m with
  | Returned a => f a
  | Thrown e => Thrown e
  end.

(** An awaited call: it returns or throws, and leaves a store behind. *)
Definition Query (A : Type) : Type := Database → outcome A * Database.

#[global] Instance Query_ret : MRet Query := λ A a db, (Returned a, db).
#[global] Instance Query_bind : MBind Query := λ A B f m db,
  match m db with
  | (Returned a, db') => f a db'
  | (Thrown e, db') => (Thrown e, db')
  end.

(** *** select ... where ... orderBy ... limit *)

Module sql.
Section builder.
Context {R : Type}.

Definition where_ (p : R → bool) (rows : list R) : list R :=
  filter p rows.

Fixpoint insert_by (le : R → R → bool) (x : R) (rows : list R)
    : list R :=
  match rows with
  | [] => [x]
  | y :: rows' => if le x y then x :: rows else y :: insert_by le x rows'
  end.

Definition orderBy (le : R → R → bool) (rows : list R) : list R :=
  foldr (insert_by le) [] rows.

Definition limit (n : nat) (rows : list R) : list R := take n rows.

(** Running a built select statement against one table. *)
Definition select {A : Type} (from : Database → list R)
    (q : list R → A) : Query A :=
  λ db, (Returned (q (from db)), db).

(** [asc(col)] and [desc(col)] on a column of integers or times. *)
Definition asc (col : R → Z) (a b : R) : bool := col a <=? col b.
Definition desc (col : R → Z) (a b : R) : bool := col b <=? col a.

(** On a nullable column the store ranks null above every value:
    nulls come last ascending and first descending. *)
Definition null_high_le (x y : option Z) : bool :=
  match x, y with
  | _, None => true
  | None, Some _ => false
  | Some a, Some b => a <=? b
  end.

Definition desc_nullable (col : R → option Z) (a b : R) : bool :=
  null_high_le (col b) (col a).

(** [asc(col)] on a text column, under the store's collation. *)
Definition asc_text (collate_le : string → string → bool)
    (col : R → string) (a b : R) : bool :=
  collate_le (col a) (col b).
End builder.

(** **** Statement parameters

    An integer column takes 32 bits.  A timestamp reaches the store in
    the ISO form of [toISOString], which the store reads for the years 0001
    to 9999 only.  Text cannot hold the NUL character.  A statement with a
    parameter outside is rejected before it touches a row or a sequence. *)
Definition in_int4 (n : Z) : bool :=
  (-2147483648 <=? n) && (n <=? 2147483647).

Definition in_timestamp (t : Z) : bool :=
  (-62135596800000 <=? t) && (t <=? 253402300799999).

Definition text_ok (s : string) : bool :=
  forallb (λ a, negb (Ascii.eqb a Ascii.zero)) (list_ascii_of_string s).

Inductive param :=
| Integer (n : Z)
| Timestamp (t : Z)
| Text (s : string).

Definition accepts (p : param) : outcome unit :=
  match p with
  | Integer n => if in_int4 n then Returned () else Thrown (OutOfRange "integer")
  | Timestamp t =>
      if in_timestamp t then Returned () else Thrown (OutOfRange "timestamp")
  | Text s => if text_ok s then Returned () else Thrown InvalidByteSequence
  end.

Definition accepts_all (ps : list param) : outcome unit :=
  foldr (λ p rest, _ ← accepts p; rest) (Returned ()) ps.

(** Sending the parameters of a statement. *)
Definition bind (ps : list param) : Query unit :=
  λ db, (accepts_all ps, db).

Arguments in_int4 : simpl never.
Arguments in_timestamp : simpl never.
Arguments text_ok : simpl never.
End sql.

(** [groupBy(col)] with [count()]: one row per distinct key, in order of
    first appearance, with the number of rows holding that key. *)
Definition group_count (keys : list string) : list (string * Z) :=
  fold_left
    (λ acc k, Js.record_set acc k (Js.or_zero (Js.record_get acc k) + 1))
    keys [].

(** *** insert, update, delete *)

(** What a statement holds for one column: nothing (the property was
    [undefined], so the column is left out), SQL NULL, or a value. *)
Inductive cell (A : Type) :=
| Omitted
| SqlNull
| SqlVal (a : A).
Arguments Omitted {A}.
Arguments SqlNull {A}.
Arguments SqlVal {A} a.

(** The query builder's column types: how a property of the payload
    becomes a statement parameter.  A timestamp parameter is produced by
    [toISOString], which only a Date has and which throws on an invalid
    one.  Payload types rule out the remaining combinations; the model
    rejects them. *)
Module column.
Definition integer (name : string) (v : Js.value) : outcome (cell Z) :=
  match v with
  | Js.Undefined => Returned Omitted
  | Js.Null => Returned SqlNull
  | Js.Num n => Returned (SqlVal n)
  | _ => Thrown (TypeMismatch name)
  end.

Definition text (name : string) (v : Js.value) : outcome (cell string) :=
  match v with
  | Js.Undefined => Returned Omitted
  | Js.Null => Returned SqlNull
  | Js.Str s => Returned (SqlVal s)
  | _ => Thrown (TypeMismatch name)
  end.

Definition timestamp (name : string) (v : Js.value) : outcome (cell Z) :=
  match v with
  | Js.Undefined => Returned Omitted
  | Js.Null => Returned SqlNull
  | Js.DateObj (Some t) => Returned (SqlVal t)
  | Js.DateObj None => Thrown InvalidTimeValue
  | _ => Thrown (TypeMismatch name)
  end.
End column.

(** A NOT NULL column without default, and a nullable one: the value the
    row gets, given the statement's cell and the value the row had
    ([None] on insert). *)
Definition not_null {A : Type} (name : string) (c : cell A) (old : option A)
    : outcome A :=
  match c with
  | SqlVal a => Returned a
  | SqlNull => Thrown (NotNullViolation name)
  | Omitted =>
      match old with
      | Some a => Returned a
      | None => Thrown (NotNullViolation name)
      end
  end.

Definition nullable {A : Type} (c : cell A) (old : option A) : option A :=
  match c with
  | SqlVal a => Some a
  | SqlNull => None
  | Omitted => old
  end.

(** The parameter a cell sends, if any. *)
Definition cell_params {A : Type} (kind : A → sql.param) (c : cell A)
    : list sql.param :=
  match c with
  | SqlVal a => [kind a]
  | _ => []
  end.

Definition is_omitted {A : Type} (c : cell A) : bool :=
  match c with
  | Omitted => true
  | _ => false
  end.

Definition with_campuses (db : Database) (rows : list Campus) (next : Z)
    : Database :=
  mkDatabase (tbl_users db) rows (tbl_events db) (tbl_chatSessions db)
    next (seq_events db).

Definition with_events (db : Database) (rows : list Event) (next : Z)
    : Database :=
  mkDatabase (tbl_users db) (tbl_campuses db) rows (tbl_chatSessions db)
    (seq_campuses db) next.

(** **** campuses *)

(** [db.insert(campuses).values(o).returning()].  The id comes from the
    table's sequence, which advances once the statement reaches the
    store. *)
Definition insert_campuses (o : Js.object) : Query (list Campus) := λ db,
  match column.text "name" (Js.get o "name") with
  | Thrown e => (Thrown e, db)
  | Returned n =>
      let id := seq_campuses db in
      match not_null "name" n None with
      | Thrown e => (Thrown e, with_campuses db (tbl_campuses db) (id + 1))
      | Returned n =>
          let row := campuses.mk id n in
          (Returned [row],
           with_campuses db (tbl_campuses db ++ [row]) (id + 1))
      end
  end.

(** The campuses matching [p] given the name the statement holds, in
    place: the new table and the rewritten rows ([returning()]). *)
Fixpoint update_campuses_where (p : Campus → bool) (c : cell string)
    (rows : list Campus) : outcome (list Campus * list Campus) :=
  match rows with
  | [] => Returned ([], [])
  | k :: rows' =>
      if p k then
        n ← not_null "name" c (Some (campuses.name k));
        '(tbl, ret) ← update_campuses_where p c rows';
        mret (campuses.mk (campuses.id k) n :: tbl,
              campuses.mk (campuses.id k) n :: ret)
      else
        '(tbl, ret) ← update_campuses_where p c rows';
        mret (k :: tbl, ret)
  end.

(** [db.update(campuses).set(o).where(p).returning()] *)
Definition update_campuses (o : Js.object) (p : Campus → bool)
    : Query (list Campus) := λ db,
  if Js.is_undefined (Js.get o "name") then (Thrown NoValuesToSet, db)
  else
    match column.text "name" (Js.get o "name") with
    | Thrown e => (Thrown e, db)
    | Returned c =>
        match update_campuses_where p c (tbl_campuses db) with
        | Thrown e => (Thrown e, db)
        | Returned (tbl, ret) =>
            (Returned ret, with_campuses db tbl (seq_campuses db))
        end
    end.

(** **** events *)

Record EventCells := mkEventCells {
  c_id : cell Z;
  c_campusId : cell Z;
  c_programType : cell string;
  c_dateTime : cell Z;
  c_endDateTime : cell Z;
  c_participantCount : cell Z;
  c_rating : cell Z
}.

(** The payload spreads into the statement, so an [id] it carries is a
    column like the others. *)
Definition events_cells (o : Js.object) : outcome EventCells :=
  i ← column.integer "id" (Js.get o "id");
  c ← column.integer "campusId" (Js.get o "campusId");
  p ← column.text "programType" (Js.get o "programType");
  d ← column.timestamp "dateTime" (Js.get o "dateTime");
  e ← column.timestamp "endDateTime" (Js.get o "endDateTime");
  n ← column.integer "participantCount" (Js.get o "participantCount");
  r ← column.integer "rating" (Js.get o "rating");
  mret (mkEventCells i c p d e n r).

Definition events_params (v : EventCells) : list sql.param :=
  cell_params sql.Integer (c_id v)
  ++ cell_params sql.Integer (c_campusId v)
  ++ cell_params sql.Text (c_programType v)
  ++ cell_params sql.Timestamp (c_dateTime v)
  ++ cell_params sql.Timestamp (c_endDateTime v)
  ++ cell_params sql.Integer (c_participantCount v)
  ++ cell_params sql.Integer (c_rating v).

Definition references_campus (db : Database) (c : Z) : bool :=
  existsb (λ k, campuses.id k =? c) (tbl_campuses db).

Definition has_event (db : Database) (id : Z) : bool :=
  existsb (λ e, events.id e =? id) (tbl_events db).

(** The row an insert ([old = None]) or an update ([old = Some e]) writes;
    [id] is the key the row gets when the statement holds none: the next
    value of the sequence on insert, the row's own on update.  The
    primary key is checked when the row is new or its [id] changes, the
    foreign key when the row is new or its [campusId] changes. *)
Definition events_row (db : Database) (id : Z) (old : option Event)
    (v : EventCells) : outcome Event :=
  i ← not_null "id" (c_id v) (Some id);
  c ← not_null "campusId" (c_campusId v) (events.campusId <$> old);
  p ← not_null "programType" (c_programType v) (events.programType <$> old);
  d ← not_null "dateTime" (c_dateTime v) (events.dateTime <$> old);
  let row :=
    events.mk i c p d
      (nullable (c_endDateTime v) (old ≫= events.endDateTime))
      (nullable (c_participantCount v) (old ≫= events.participantCount))
      (nullable (c_rating v) (old ≫= events.rating)) in
  if negb (bool_decide (events.id <$> old = Some i)) && has_event db i
  then Thrown (UniqueViolation "id")
  else if bool_decide (events.campusId <$> old = Some c)
          || references_campus db c
  then Returned row
  else Thrown ForeignKeyViolation.

(** [db.insert(events).values(o).returning()].  The sequence gives the id,
    and advances, only when the statement holds none; a sequence that has
    run past 32 bits gives none, and the statement fails as it does on a
    parameter out of range. *)
Definition insert_events (o : Js.object) : Query (list Event) := λ db,
  match events_cells o with
  | Thrown e => (Thrown e, db)
  | Returned v =>
      let id := seq_events db in
      let generated := if is_omitted (c_id v) then [sql.Integer id] else [] in
      let next := if is_omitted (c_id v) then id + 1 else id in
      match sql.accepts_all (events_params v ++ generated) with
      | Thrown e => (Thrown e, db)
      | Returned _ =>
          match events_row db id None v with
          | Thrown e => (Thrown e, with_events db (tbl_events db) next)
          | Returned row =>
              (Returned [row], with_events db (tbl_events db ++ [row]) next)
          end
      end
  end.

(** [.set(o)] keeps the properties that are not [undefined], whatever
    their names, and refuses to go on with none left. *)
Definition sets_nothing (o : Js.object) : bool :=
  forallb (λ kv : string * Js.value, Js.is_undefined kv.2) (map_to_list o).

(** The statement is built from the properties that name a column; with
    none of them its SET clause is empty, which the store cannot parse. *)
Definition sets_no_column (v : EventCells) : bool :=
  is_omitted (c_id v) && is_omitted (c_campusId v)
  && is_omitted (c_programType v) && is_omitted (c_dateTime v)
  && is_omitted (c_endDateTime v) && is_omitted (c_participantCount v)
  && is_omitted (c_rating v).

(** The rows matching [p] rewritten by [f], in place: the new table and
    the rewritten rows ([returning()]). *)
Fixpoint update_where (p : Event → bool) (f : Event → outcome Event)
    (rows : list Event) : outcome (list Event * list Event) :=
  match rows with
  | [] => Returned ([], [])
  | e :: rows' =>
      if p e then
        e' ← f e;
        '(tbl, ret) ← update_where p f rows';
        mret (e' :: tbl, e' :: ret)
      else
        '(tbl, ret) ← update_where p f rows';
        mret (e :: tbl, ret)
  end.

(** [db.update(events).set(o).where(p).returning()], [ps] being the
    parameters of the condition [p]. *)
Definition update_events (o : Js.object) (ps : list sql.param)
    (p : Event → bool) : Query (list Event) := λ db,
  if sets_nothing o then (Thrown NoValuesToSet, db)
  else
    match events_cells o with
    | Thrown e => (Thrown e, db)
    | Returned v =>
        if sets_no_column v then (Thrown SyntaxError, db)
        else
          match sql.accepts_all (events_params v ++ ps) with
          | Thrown e => (Thrown e, db)
          | Returned _ =>
              match
                update_where p (λ e, events_row db (events.id e) (Some e) v)
                  (tbl_events db)
              with
              | Thrown e => (Thrown e, db)
              | Returned (tbl, ret) =>
                  (Returned ret, with_events db tbl (seq_events db))
              end
          end
    end.

(** [db.delete(events).where(p).returning()] *)
Definition delete_events (p : Event → bool) : Query (list Event) := λ db,
  (Returned (filter p (tbl_events db)),
   with_events db (filter (λ e, negb (p e)) (tbl_events db)) (seq_events db)).

(** **** users *)

(** Modelled from the spec: the users table has a generated id and a
    unique email.  Its sequence is store state beside the tables above,
    and a duplicate key is a failure of its own. *)
Record UsersStore := mkUsersStore {
  us_db : Database;
  seq_users : Z
}.

Inductive insert_outcome (A : Type) :=
| Inserted (a : A)
| Rejected (e : error)
| Duplicate (column : string).
Arguments Inserted {A} a.
Arguments Rejected {A} e.
Arguments Duplicate {A} column.

Definition with_users (db : Database) (rows : list User) : Database :=
  mkDatabase rows (tbl_campuses db) (tbl_events db) (tbl_chatSessions db)
    (seq_campuses db) (seq_events db).

Definition users_cells (o : Js.object) : outcome (cell Z * cell string) :=
  i ← column.integer "id" (Js.get o "id");
  c ← column.text "email" (Js.get o "email");
  mret (i, c).

Definition users_row (id : Z) (v : cell Z * cell string) : outcome User :=
  i ← not_null "id" v.1 (Some id);
  email ← not_null "email" v.2 None;
  mret (users.mk i email).

(** [db.insert(users).values(o).returning()] *)
Definition insert_users (o : Js.object)
    : UsersStore → insert_outcome (list User) * UsersStore := λ st,
  match users_cells o with
  | Thrown e => (Rejected e, st)
  | Returned v =>
      let id := seq_users st in
      let db := us_db st in
      let generated := if is_omitted v.1 then [sql.Integer id] else [] in
      let next := if is_omitted v.1 then id + 1 else id in
      match
        sql.accepts_all
          (cell_params sql.Integer v.1 ++ cell_params sql.Text v.2
           ++ generated)
      with
      | Thrown e => (Rejected e, st)
      | Returned _ =>
          match users_row id v with
          | Thrown e => (Rejected e, mkUsersStore db next)
          | Returned row =>
              if existsb (λ u, users.id u =? users.id row) (tbl_users db)
              then (Duplicate "id", mkUsersStore db next)
              else if existsb (λ u, String.eqb (users.email u) (users.email row))
                        (tbl_users db)
              then (Duplicate "email", mkUsersStore db next)
              else
                (Inserted [row],
                 mkUsersStore (with_users db (tbl_users db ++ [row])) next)
          end
      end
  end.

(** ** Sample runtime settings

    The methods below are parameterised by what the runtime and the store
    decide: the date parser, the local time zone, the locale's month names
    and the collation of text.  These are the settings used in the worked
    examples. *)

(** A parser that knows three ISO strings. *)
Definition sample_parse (s : string) : option Z :=
  if String.eqb s "2024-03-05T10:00:00.000Z" then Some 1709632800000
  else if String.eqb s "2024-03-20T18:30:00.000Z" then Some 1710959400000
  else if String.eqb s "2024-07-01T00:00:00.000Z" then Some 1719792000000
  else None.

Definition utc (t : Z) : Z := 0.

Definition en_month (m : Js.Month) : string :=
  match m with
  | Js.January => "January"
  | Js.February => "February"
  | Js.March => "March"
  | Js.April => "April"
  | Js.May => "May"
  | Js.June => "June"
  | Js.July => "July"
  | Js.August => "August"
  | Js.September => "September"
  | Js.October => "October"
  | Js.November => "November"
  | Js.December => "December"
  end.


(** A store with two campuses; campus 1 has two events in March 2024,
    campus 2 one event in July 2024; user 1 has five chat sessions. *)
Definition sample_db : Database :=
  mkDatabase
    [users.mk 1 "ada@example.org"]
    [campuses.mk 1 "North"; campuses.mk 2 "East"]
    [events.mk 1 1 "workshop" 1709632800000 None (Some 10) None;
     events.mk 2 1 "seminar" 1710959400000 (Some 1710966600000) (Some 5)
       (Some 4);
     events.mk 3 2 "workshop" 1719792000000 None None (Some 2)]
    [chatSessions.mk 1 1 1000; chatSessions.mk 2 1 5000;
     chatSessions.mk 3 1 3000; chatSessions.mk 4 1 4000;
     chatSessions.mk 5 1 2000]
    3 4.

(** One campus with events at 09:00, 12:00 and 15:00 UTC on 5 March
    2024. *)
Definition day_db : Database :=
  mkDatabase [] [campuses.mk 1 "North"]
    [events.mk 1 1 "lecture" 1709640000000 None None None;
     events.mk 2 1 "lecture" 1709629200000 None None None;
     events.mk 3 1 "lecture" 1709650800000 None None None]
    [] 2 4.

Definition new_event : Js.object :=
  {[ "campusId" := Js.Num 1;
     "programType" := Js.Str "workshop";
     "dateTime" := Js.Str "2024-07-01T00:00:00.000Z";
     "endDateTime" := Js.Str "2024-03-20T18:30:00.000Z";
     "participantCount" := Js.Num 12 ]}.

(** The same payload with an end that is present but falsy: the empty
    string, and the number 0. *)
Definition blank_end_event : Js.object :=
  <["endDateTime" := Js.Str ""]> new_event.


(** Update payloads: a new participant count, alone and together with an
    explicit null for [endDateTime]. *)
Definition count_update : Js.object :=
  {[ "participantCount" := Js.Num 7 ]}.

Definition null_end_update : Js.object :=
  {[ "endDateTime" := Js.Null; "participantCount" := Js.Num 7 ]}.



Definition sample_users : UsersStore := mkUsersStore sample_db 2.

Definition new_user : Js.object :=
  {[ "email" := Js.Str "grace@example.org" ]}.

Definition known_user : Js.object :=
  {[ "email" := Js.Str "ada@example.org" ]}.

Definition unparsable_event : Js.object :=
  <["dateTime" := Js.Str "next tuesday"]> new_event.

Definition rename_campus : Js.object :=
  {[ "name" := Js.Str "Northgate" ]}.

(** ** The adapter *)

Section SupabaseStorage.

Variable Date_parse : string → option Z.
Variable LocalTZA : Z → Z.
Variable monthLong : Js.Month → string.
Variable collate_le : string → string → bool.

(** [new Date(v)] *)
Definition Date_ (v : Js.value) : Js.value :=
  Js.DateObj (Js.new_Date Date_parse v).

(** [d.getFullYear()] and [d.toLocaleString('default', {month: 'long'})]
    read the local time of [d]. *)
Definition LocalTime (t : Z) : Z := t + LocalTZA t.
Definition getFullYear (t : Z) : Z := Js.YearFromTime (LocalTime t).
Definition toLocaleString_month (t : Z) : string :=
  monthLong (Js.MonthFromTime (LocalTime t)).

(** *** User operations *)

Definition getUser (id : Z) : Query (option User) :=
  _ ← sql.bind [sql.Integer id];
  result ← sql.select tbl_users
    (λ rows, sql.limit 1 (sql.where_ (λ u, users.id u =? id) rows));
  mret (result !! 0%nat).

Definition getUserByEmail (email : string) : Query (option User) :=
  _ ← sql.bind [sql.Text email];
  result ← sql.select tbl_users
    (λ rows,
       sql.limit 1 (sql.where_ (λ u, String.eqb (users.email u) email) rows));
  mret (result !! 0%nat).

Definition createUser (userData : Js.object)
    : UsersStore → insert_outcome (option User) * UsersStore := λ st,
  match insert_users userData st with
  | (Inserted result, st') => (Inserted (result !! 0%nat), st')
  | (Rejected e, st') => (Rejected e, st')
  | (Duplicate column, st') => (Duplicate column, st')
  end.

(** *** Campus operations *)

Definition getCampus (id : Z) : Query (option Campus) :=
  result ← sql.select tbl_campuses
    (λ rows, sql.limit 1 (sql.where_ (λ c, campuses.id c =? id) rows));
  mret (result !! 0%nat).

Definition getAllCampuses : Query (list Campus) :=
  sql.select tbl_campuses
    (λ rows, sql.orderBy (sql.asc_text collate_le campuses.name) rows).

Definition createCampus (campusData : Js.object) : Query (option Campus) :=
  result ← insert_campuses campusData;
  mret (result !! 0%nat).

Definition updateCampus (id : Z) (updates : Js.object)
    : Query (option Campus) :=
  result ← update_campuses updates (λ c, campuses.id c =? id);
  mret (result !! 0%nat).

(** *** Event operations *)

Definition getEvent (id : Z) : Query (option Event) :=
  _ ← sql.bind [sql.Integer id];
  result ← sql.select tbl_events
    (λ rows, sql.limit 1 (sql.where_ (λ e, events.id e =? id) rows));
  mret (result !! 0%nat).

Definition getEventsByCampus (campusId : Z) : Query (list Event) :=
  sql.select tbl_events
    (λ rows,
       sql.orderBy (sql.desc events.dateTime)
         (sql.where_ (λ e, events.campusId e =? campusId) rows)).

Definition getEventsInDateRange (campusId startDate endDate : Z)
    : Query (list Event) :=
  _ ← sql.bind
        [sql.Integer campusId; sql.Timestamp startDate; sql.Timestamp endDate];
  sql.select tbl_events
    (λ rows,
       sql.orderBy (sql.asc events.dateTime)
         (sql.where_
            (λ e, (events.campusId e =? campusId)
                  && (startDate <=? events.dateTime e)
                  && (events.dateTime e <=? endDate))
            rows)).

Definition processedData (eventData : Js.object) : Js.object :=
  <["endDateTime" :=
      if Js.ToBoolean (Js.get eventData "endDateTime")
      then Date_ (Js.get eventData "endDateTime")
      else Js.Null]>
    (<["dateTime" := Date_ (Js.get eventData "dateTime")]> eventData).

Definition createEvent (eventData : Js.object) : Query (option Event) :=
  result ← insert_events (processedData eventData);
  mret (result !! 0%nat).

Definition processedUpdates (updates : Js.object) : Js.object :=
  <["endDateTime" :=
      if Js.ToBoolean (Js.get updates "endDateTime")
      then Date_ (Js.get updates "endDateTime")
      else Js.Undefined]>
    (<["dateTime" :=
         if Js.ToBoolean (Js.get updates "dateTime")
         then Date_ (Js.get updates "dateTime")
         else Js.Undefined]> updates).

Definition updateEvent (id : Z) (updates : Js.object)
    : Query (option Event) :=
  result ← update_events (processedUpdates updates) [sql.Integer id]
              (λ e, events.id e =? id);
  mret (result !! 0%nat).

Definition deleteEvent (id : Z) : Query bool :=
  _ ← sql.bind [sql.Integer id];
  result ← delete_events (λ e, events.id e =? id);
  mret (0 <? length result)%nat.

(** *** Chat operations *)

(** [limit: number = 10]: the default applies when the argument is not
    passed. *)
Definition getChatHistory (userId : Z) (limit : option nat)
    : Query (list ChatSession) :=
  let limit := default 10%nat limit in
  sql.select tbl_chatSessions
    (λ rows,
       sql.limit limit
         (sql.orderBy (sql.desc chatSessions.createdAt)
            (sql.where_ (λ s, chatSessions.userId s =? userId) rows))).

(** *** Analytics *)

Definition getEventTypeDistribution (campusId : Z)
    : Query (list (string * Z)) :=
  result ← sql.select tbl_events
    (λ rows,
       group_count
         (map events.programType
            (sql.where_ (λ e, events.campusId e =? campusId) rows)));
  mret (map (λ row, (row.1, row.2)) result).

Definition getMonthlyParticipation (campusId year : Z)
    : Query (list (string * Z)) :=
  dbEvents ← sql.select tbl_events
    (λ rows,
       map (λ e, (events.dateTime e, events.participantCount e))
         (sql.where_ (λ e, events.campusId e =? campusId) rows));
  let monthlyData :=
    fold_left
      (λ (acc : Js.record) (event : Z * option Z),
         let month := toLocaleString_month event.1 in
         Js.record_set acc month
           (Js.or_zero (Js.record_get acc month) + Js.or_zero event.2))
      (filter (λ event : Z * option Z, getFullYear event.1 =? year) dbEvents)
      [] in
  mret (map (λ '(month, participants), (month, participants)) monthlyData).

Definition getTopRatedEvents (campusId : Z) (limit : option nat)
    : Query (list Event) :=
  let limit := default 5%nat limit in
  sql.select tbl_events
    (λ rows,
       sql.limit limit
         (sql.orderBy (sql.desc_nullable events.rating)
            (sql.where_ (λ e, events.campusId e =? campusId) rows))).

End SupabaseStorage.

(** ** Vocabulary of the properties *)

(** A call that leaves the store as it found it. *)
Definition read_only {A : Type} (q : Query A) : Prop :=
  ∀ db, (q db).2 = db.

#[global] Instance Month_eq_dec : EqDecision Js.Month.
Proof. solve_decision. Defined.

(** *** The calendar of the specification

    Calendar years and months as day counts from 1 January 1970, written
    from the Gregorian rules: a year has 365 days and a leap day every
    fourth year, except every hundredth, except every four-hundredth. *)
Definition leap_year (y : Z) : bool :=
  (y mod 4 =? 0) && (negb (y mod 100 =? 0) || (y mod 400 =? 0)).

(** Days from 1 January 1970 to 1 January of year [y]: 719162 days lie
    between 1 January 0001 and 1 January 1970. *)
Definition days_before_year (y : Z) : Z :=
  365 * (y - 1) + (y - 1) / 4 - (y - 1) / 100 + (y - 1) / 400 - 719162.

Definition month_length (y : Z) (m : Js.Month) : Z :=
  match m with
  | Js.February => if leap_year y then 29 else 28
  | Js.April | Js.June | Js.September | Js.November => 30
  | _ => 31
  end.

Definition months : list Js.Month :=
  [Js.January; Js.February; Js.March; Js.April; Js.May; Js.June; Js.July;
   Js.August; Js.September; Js.October; Js.November; Js.December].

(** The months of [ms] that come before [m]. *)
Fixpoint before (m : Js.Month) (ms : list Js.Month) : list Js.Month :=
  match ms with
  | [] => []
  | m' :: ms' => if decide (m' = m) then [] else m' :: before m ms'
  end.

Definition months_before (m : Js.Month) : list Js.Month := before m months.

(** The day on which month [m] of year [y] begins. *)
Definition first_day (y : Z) (m : Js.Month) : Z :=
  days_before_year y + foldr Z.add 0 (month_length y <$> months_before m).

(** Time value [t] lies in year [y], and in month [m] of year [y]. *)
Definition in_year (y : Z) (t : Z) : Prop :=
  86400000 * days_before_year y ≤ t < 86400000 * days_before_year (y + 1).

Definition in_month (y : Z) (m : Js.Month) (t : Z) : Prop :=
  86400000 * first_day y m ≤ t
  < 86400000 * (first_day y m + month_length y m).

#[global] Instance in_year_dec y t : Decision (in_year y t).
Proof. unfold in_year. apply _. Defined.

#[global] Instance in_month_dec y m t : Decision (in_month y m t).
Proof. unfold in_month. apply _. Defined.

(** The events of a campus that fall in year [year] of the local
    calendar, local time being the time value moved by the zone's
    offset. *)
Definition events_of_year (LocalTZA : Z → Z) (campusId year : Z)
    (db : Database) : list Event :=
  filter
    (λ e, events.campusId e = campusId
          ∧ in_year year (events.dateTime e + LocalTZA (events.dateTime e)))
    (tbl_events db).

(** The sum the specification asks for: the participant counts, null as
    zero, of the events of [es] that fall in month [m] of year [year] of
    the local calendar. *)
Definition month_participants (LocalTZA : Z → Z) (year : Z) (m : Js.Month)
    (es : list Event) : Z :=
  foldr
    (λ e s,
       match events.participantCount e with
       | Some n => n
       | None => 0
       end + s)
    0
    (filter
       (λ e, in_month year m (events.dateTime e + LocalTZA (events.dateTime e)))
       es).

(** Modelled from the spec: the payload types [InsertEvent] and
    [Partial<InsertEvent>] of [@shared/schema], which is not part of the
    sources.  A campus id is a number, a program type a string, and the
    nullable columns take a number, null, or nothing.  The id is generated:
    the payload has none. *)
Definition optional_integer (v : Js.value) : bool :=
  match v with
  | Js.Undefined | Js.Null => true
  | Js.Num n => sql.in_int4 n
  | _ => false
  end.

(** [new Date(v)] is a valid date within the years the store takes. *)
Definition date_ok (parse : string → option Z) (v : Js.value) : bool :=
  match Js.new_Date parse v with
  | Some t => sql.in_timestamp t
  | None => false
  end.

(** A payload [createEvent] can store: typed as [InsertEvent], with
    values the columns take, naming a campus of the store, with a start
    that is a valid date and an end that is falsy or a valid date; and the
    sequence has a key left that no row holds. *)
Definition InsertEvent_ok (parse : string → option Z) (db : Database)
    (o : Js.object) : bool :=
  Js.is_undefined (Js.get o "id")
  && sql.in_int4 (seq_events db)
  && negb (has_event db (seq_events db))
  && match Js.get o "campusId", Js.get o "programType" with
     | Js.Num c, Js.Str p =>
         sql.in_int4 c
         && references_campus db c
         && sql.text_ok p
         && optional_integer (Js.get o "participantCount")
         && optional_integer (Js.get o "rating")
         && date_ok parse (Js.get o "dateTime")
         && (negb (Js.ToBoolean (Js.get o "endDateTime"))
             || date_ok parse (Js.get o "endDateTime"))
     | _, _ => false
     end.

Definition events_columns : list string :=
  ["campusId"; "programType"; "dateTime"; "endDateTime"; "participantCount";
   "rating"]%string.

(** A payload [updateEvent] can apply: typed as [Partial<InsertEvent>],
    with values the columns take, any campus it names being in the store,
    each date falsy or valid, and at least one column left to set once the
    dates are processed. *)
Definition Partial_InsertEvent_ok (parse : string → option Z) (db : Database)
    (o : Js.object) : bool :=
  Js.is_undefined (Js.get o "id")
  && match Js.get o "campusId" with
     | Js.Undefined => true
     | Js.Num c => sql.in_int4 c && references_campus db c
     | _ => false
     end
  && match Js.get o "programType" with
     | Js.Undefined => true
     | Js.Str p => sql.text_ok p
     | _ => false
     end
  && optional_integer (Js.get o "participantCount")
  && optional_integer (Js.get o "rating")
  && (negb (Js.ToBoolean (Js.get o "dateTime"))
      || date_ok parse (Js.get o "dateTime"))
  && (negb (Js.ToBoolean (Js.get o "endDateTime"))
      || date_ok parse (Js.get o "endDateTime"))
  && existsb
       (λ c, negb (Js.is_undefined (Js.get (processedUpdates parse o) c)))
       events_columns.

(** Partial-update semantics, column by column: what row [e'] an update
    with payload [updates] makes of row [e].  A column whose property is
    absent keeps its value; a number or string is written; null is written
    to a nullable column; a date is written, coerced, when it is truthy
    and kept otherwise. *)
Definition partial_update (parse : string → option Z) (updates : Js.object)
    (e e' : Event) : Prop :=
  events.id e' = events.id e ∧
  events.campusId e'
  = match Js.get updates "campusId" with
    | Js.Num c => c
    | _ => events.campusId e
    end ∧
  events.programType e'
  = match Js.get updates "programType" with
    | Js.Str s => s
    | _ => events.programType e
    end ∧
  Some (events.dateTime e')
  = (if Js.ToBoolean (Js.get updates "dateTime")
     then Js.new_Date parse (Js.get updates "dateTime")
     else Some (events.dateTime e)) ∧
  events.endDateTime e'
  = (if Js.ToBoolean (Js.get updates "endDateTime")
     then Js.new_Date parse (Js.get updates "endDateTime")
     else events.endDateTime e) ∧
  events.participantCount e'
  = match Js.get updates "participantCount" with
    | Js.Num n => Some n
    | Js.Null => None
    | _ => events.participantCount e
    end ∧
  events.rating e'
  = match Js.get updates "rating" with
    | Js.Num n => Some n
    | Js.Null => None
    | _ => events.rating e
    end.

(** Keys are unique and below the next value of their sequence. *)
Definition fresh_ids (db : Database) : Prop :=
  NoDup (campuses.id <$> tbl_campuses db) ∧
  Forall (λ c, campuses.id c < seq_campuses db) (tbl_campuses db) ∧
  NoDup (events.id <$> tbl_events db) ∧
  Forall (λ e, events.id e < seq_events db) (tbl_events db).

(** Every event belongs to a campus of the store. *)
Definition references_ok (db : Database) : Prop :=
  Forall (λ e, references_campus db (events.campusId e) = true)
    (tbl_events db).

(** The four tables, without the sequences. *)
Definition same_tables (db db' : Database) : Prop :=
  tbl_users db' = tbl_users db ∧
  tbl_campuses db' = tbl_campuses db ∧
  tbl_events db' = tbl_events db ∧
  tbl_chatSessions db' = tbl_chatSessions db.

(** ** Properties of the statement builder *)

Section sorting.
Context {R : Type} (le : R → R → bool).

Lemma insert_by_Permutation x rows : sql.insert_by le x rows ≡ₚ x :: rows.
Proof.
  induction rows as [|y rows IH]; simpl; [done|].
  destruct (le x y); [done|].
  rewrite IH. apply perm_swap.
Qed.

Lemma orderBy_Permutation rows : sql.orderBy le rows ≡ₚ rows.
Proof.
  induction rows as [|x rows IH]; simpl; [done|].
  unfold sql.orderBy in IH. by rewrite insert_by_Permutation, IH.
Qed.

Hypothesis le_total : ∀ a b, le a b = true ∨ le b a = true.

Lemma insert_by_Sorted x rows :
  Sorted (λ a b, le a b = true) rows →
  Sorted (λ a b, le a b = true) (sql.insert_by le x rows).
Proof.
  induction 1 as [|y rows Hs IH Hhd]; simpl.
  - repeat constructor.
  - destruct (le x y) eqn:Hxy.
    + constructor; [by constructor|by constructor].
    + constructor; [done|].
      destruct (le_total x y) as [?|Hyx]; [congruence|].
      destruct Hhd as [|z rows Hyz]; simpl; [by constructor|].
      destruct (le x z); by constructor.
Qed.

Lemma orderBy_Sorted rows :
  Sorted (λ a b, le a b = true) (sql.orderBy le rows).
Proof.
  induction rows as [|x rows IH]; simpl; [constructor|].
  by apply insert_by_Sorted.
Qed.

Hypothesis le_trans :
  ∀ a b c, le a b = true → le b c = true → le a c = true.

Lemma orderBy_StronglySorted rows :
  StronglySorted (λ a b, le a b = true) (sql.orderBy le rows).
Proof.
  apply Sorted_StronglySorted; [|apply orderBy_Sorted].
  intros a b c. apply le_trans.
Qed.
End sorting.






(** ** Properties of the reads *)

(** *** Statements on parameters the store takes *)

Lemma getUser_accepted (id : Z) (db : Database) :
  sql.in_int4 id = true →
  getUser id db
  = (Returned
       (sql.limit 1 (sql.where_ (λ u, users.id u =? id) (tbl_users db))
        !! 0%nat),
     db).
Proof.
  intros Hid. unfold getUser, mbind, Query_bind, sql.bind. simpl.
  by rewrite Hid.
Qed.

Lemma getUserByEmail_accepted (email : string) (db : Database) :
  sql.text_ok email = true →
  getUserByEmail email db
  = (Returned
       (sql.limit 1
          (sql.where_ (λ u, String.eqb (users.email u) email) (tbl_users db))
        !! 0%nat),
     db).
Proof.
  intros Hemail. unfold getUserByEmail, mbind, Query_bind, sql.bind. simpl.
  by rewrite Hemail.
Qed.

Lemma getEvent_accepted (id : Z) (db : Database) :
  sql.in_int4 id = true →
  getEvent id db
  = (Returned
       (sql.limit 1 (sql.where_ (λ e, events.id e =? id) (tbl_events db))
        !! 0%nat),
     db).
Proof.
  intros Hid. unfold getEvent, mbind, Query_bind, sql.bind. simpl.
  by rewrite Hid.
Qed.

Lemma getEvent_rejected (id : Z) (db : Database) :
  sql.in_int4 id = false →
  getEvent id db = (Thrown (OutOfRange "integer"), db).
Proof.
  intros Hid. unfold getEvent, mbind, Query_bind, sql.bind. simpl.
  by rewrite Hid.
Qed.

Lemma getEventsInDateRange_accepted
    (campusId startDate endDate : Z) (db : Database) :
  sql.in_int4 campusId = true →
  sql.in_timestamp startDate = true →
  sql.in_timestamp endDate = true →
  getEventsInDateRange campusId startDate endDate db
  = (Returned
       (sql.orderBy (sql.asc events.dateTime)
          (sql.where_
             (λ e, (events.campusId e =? campusId)
                   && (startDate <=? events.dateTime e)
                   && (events.dateTime e <=? endDate))
             (tbl_events db))),
     db).
Proof.
  intros Hc Hs He.
  unfold getEventsInDateRange, mbind, Query_bind, sql.bind. simpl.
  by rewrite Hc, Hs, He.
Qed.

Lemma deleteEvent_accepted (id : Z) (db : Database) :
  sql.in_int4 id = true →
  deleteEvent id db
  = (Returned
       (Nat.ltb 0 (length (filter (λ e, events.id e =? id) (tbl_events db)))),
     with_events db
       (filter (λ e, negb (events.id e =? id)) (tbl_events db))
       (seq_events db)).
Proof.
  intros Hid. unfold deleteEvent, mbind, Query_bind, sql.bind. simpl.
  by rewrite Hid.
Qed.

Lemma deleteEvent_rejected (id : Z) (db : Database) :
  sql.in_int4 id = false →
  deleteEvent id db = (Thrown (OutOfRange "integer"), db).
Proof.
  intros Hid. unfold deleteEvent, mbind, Query_bind, sql.bind. simpl.
  by rewrite Hid.
Qed.


Lemma where_as_filter {R : Type} (p : R → bool) (P : R → Prop)
    `{!∀ r, Decision (P r)} (rows : list R) :
  (∀ r, p r = true ↔ P r) → sql.where_ p rows = filter P rows.
Proof.
  intros HpP. unfold sql.where_. apply list_filter_iff.
  intros r. rewrite <- HpP. apply Is_true_true.
Qed.



(** *** Reads and the store *)

Lemma read_only_select {R A : Type} (from : Database → list R)
    (q : list R → A) :
  read_only (sql.select from q).
Proof. by intros db. Qed.

Lemma read_only_mret {A : Type} (a : A) : read_only (mret a).
Proof. by intros db. Qed.

Lemma read_only_bind {A B : Type} (m : Query A) (f : A → Query B) :
  read_only m → (∀ a, read_only (f a)) → read_only (m ≫= f).
Proof.
  intros Hm Hf db. unfold mbind, Query_bind.
  specialize (Hm db). destruct (m db) as [[a|e] db']; simpl in *; subst.
  - apply Hf.
  - done.
Qed.

Lemma read_only_params (ps : list sql.param) : read_only (sql.bind ps).
Proof. by intros db. Qed.

Create HintDb reads.
#[local] Hint Resolve read_only_select read_only_mret read_only_bind
  read_only_params : reads.

(** C9.  Each of the eleven reads hands back the store it was given,
    whether it returns or throws. *)
Theorem reads_leave_store_unchanged
    (LocalTZA : Z → Z) (monthLong : Js.Month → string)
    (collate_le : string → string → bool) :
  (∀ id, read_only (getUser id)) ∧
  (∀ email, read_only (getUserByEmail email)) ∧
  (∀ id, read_only (getCampus id)) ∧
  read_only (getAllCampuses collate_le) ∧
  (∀ id, read_only (getEvent id)) ∧
  (∀ campusId, read_only (getEventsByCampus campusId)) ∧
  (∀ campusId startDate endDate,
     read_only (getEventsInDateRange campusId startDate endDate)) ∧
  (∀ userId limit, read_only (getChatHistory userId limit)) ∧
  (∀ campusId, read_only (getEventTypeDistribution campusId)) ∧
  (∀ campusId year,
     read_only (getMonthlyParticipation LocalTZA monthLong campusId year)) ∧
  (∀ campusId limit, read_only (getTopRatedEvents campusId limit)).
Proof.
  repeat split; intros;
    unfold getUser, getUserByEmail, getCampus, getAllCampuses, getEvent,
      getEventsByCampus, getEventsInDateRange, getChatHistory,
      getEventTypeDistribution, getMonthlyParticipation, getTopRatedEvents;
    auto with reads.
Qed.

(** ** Properties of the writes *)

(** C4.  For an id within 32 bits [deleteEvent] returns, and returns
    [true] exactly when some row carried the id; the rows carrying it are
    gone and the others stay, so a second call with the same id returns
    [false]. *)
Theorem deleteEvent_true_iff_row_matched (id : Z) (db : Database) :
  sql.in_int4 id = true →
  ∃ deleted db',
    deleteEvent id db = (Returned deleted, db') ∧
    (deleted = true ↔ ∃ e, e ∈ tbl_events db ∧ events.id e = id) ∧
    (∀ e, e ∈ tbl_events db' ↔ e ∈ tbl_events db ∧ events.id e ≠ id) ∧
    (deleteEvent id db').1 = Returned false.
Proof.
  intros Hid.
  eexists _, _. split; [by apply deleteEvent_accepted|]. split; [|split].
  - rewrite Nat.ltb_lt. split.
    + intros Hlen.
      destruct (filter _ (tbl_events db)) as [|e rows] eqn:Hrows;
        [simpl in Hlen; lia|].
      assert (He : e ∈ filter (λ e, events.id e =? id) (tbl_events db))
        by (rewrite Hrows; apply list_elem_of_here).
      apply list_elem_of_filter in He as [He ?].
      exists e. split; [done|]. apply Is_true_true in He. lia.
    + intros (e & He & Hid').
      assert (He' : e ∈ filter (λ e, events.id e =? id) (tbl_events db)).
      { apply list_elem_of_filter. split; [|done].
        apply Is_true_true. lia. }
      destruct (filter _ (tbl_events db)); [by apply elem_of_nil in He'|].
      simpl. lia.
  - intros e. simpl. rewrite list_elem_of_filter.
    rewrite Is_true_true, negb_true_iff.
    split; intros [? ?]; split; try done; lia.
  - rewrite deleteEvent_accepted by done. simpl. f_equal.
    destruct (filter _ (filter _ (tbl_events db))) as [|e rows] eqn:Hrows;
      [done|].
    assert (He : e ∈ e :: rows) by apply list_elem_of_here.
    rewrite <- Hrows in He.
    apply list_elem_of_filter in He as [He1 He2].
    apply list_elem_of_filter in He2 as [He2 _].
    apply Is_true_true in He1. apply Is_true_true in He2.
    rewrite negb_true_iff in He2. congruence.
Qed.


(** ** The monthly reduction *)

Lemma record_get_set (o : Js.record) (k k' : string) (v : Z) :
  Js.record_get (Js.record_set o k v) k'
  = if String.eqb k k' then Some v else Js.record_get o k'.
Proof.
  induction o as [|[k0 v0] o IH]; simpl.
  - done.
  - destruct (String.eqb_spec k0 k) as [->|Hne]; simpl.
    + by destruct (String.eqb k k').
    + rewrite IH. destruct (String.eqb_spec k0 k') as [->|?]; [|done].
      by destruct (String.eqb_spec k k') as [->|?].
Qed.

Lemma record_set_keys (o : Js.record) (k k' : string) (v : Z) :
  k' ∈ (Js.record_set o k v).*1 ↔ k' = k ∨ k' ∈ o.*1.
Proof.
  induction o as [|[k0 v0] o IH]; simpl.
  - rewrite list_elem_of_singleton.
    split; [by left|]. by intros [?|?%elem_of_nil].
  - destruct (String.eqb_spec k0 k) as [->|Hne]; simpl.
    + rewrite elem_of_cons. tauto.
    + rewrite !elem_of_cons, IH. tauto.
Qed.

Lemma record_set_NoDup (o : Js.record) (k : string) (v : Z) :
  NoDup o.*1 → NoDup (Js.record_set o k v).*1.
Proof.
  induction o as [|[k0 v0] o IH]; simpl; intros Hnd.
  - apply NoDup_singleton.
  - apply NoDup_cons in Hnd as [Hk0 Hnd].
    destruct (String.eqb_spec k0 k) as [->|Hne]; simpl.
    + by apply NoDup_cons.
    + apply NoDup_cons. split; [|by apply IH].
      rewrite record_set_keys. tauto.
Qed.

Lemma record_get_elem_of (o : Js.record) (k : string) (v : Z) :
  NoDup o.*1 → (k, v) ∈ o ↔ Js.record_get o k = Some v.
Proof.
  induction o as [|[k0 v0] o IH]; simpl; intros Hnd.
  - split; [by intros ?%elem_of_nil|done].
  - apply NoDup_cons in Hnd as [Hk0 Hnd].
    rewrite elem_of_cons, IH by done.
    destruct (String.eqb_spec k0 k) as [->|Hne].
    + split.
      * intros [[= -> ]|Hget]; [done|].
        apply IH in Hget; [|done]. destruct Hk0.
        apply list_elem_of_fmap. by exists (k, v).
      * intros [= ->]. by left.
    + split; [|by right]. intros [[= ? ?]|?]; [congruence|done].
Qed.

Section tally.
Context {E : Type} (key : E → string) (val : E → Z).

Lemma fold_tally_get (l : list E) (acc : Js.record) (k : string) :
  Js.record_get
    (fold_left
       (λ acc x,
          Js.record_set acc (key x)
            (Js.or_zero (Js.record_get acc (key x)) + val x))
       l acc) k
  = match filter (λ x, key x = k) l with
    | [] => Js.record_get acc k
    | xs =>
        Some (Js.or_zero (Js.record_get acc k)
              + foldr (λ x s, val x + s) 0 xs)
    end.
Proof.
  revert acc. induction l as [|x l IH]; intros acc; simpl; [done|].
  rewrite IH, record_get_set, filter_cons.
  destruct (String.eqb_spec (key x) k) as [Hk|Hk].
  - rewrite decide_True by done. subst k. simpl.
    destruct (filter _ l); simpl; f_equal; lia.
  - by rewrite decide_False by done.
Qed.

Lemma fold_tally_NoDup (l : list E) (acc : Js.record) :
  NoDup acc.*1 →
  NoDup
    (fold_left
       (λ acc x,
          Js.record_set acc (key x)
            (Js.or_zero (Js.record_get acc (key x)) + val x))
       l acc).*1.
Proof.
  revert acc. induction l as [|x l IH]; intros acc Hnd; simpl; [done|].
  by apply IH, record_set_NoDup.
Qed.
End tally.

Lemma filter_fmap {A B : Type} (f : A → B) (P : B → Prop)
    `{!∀ b, Decision (P b)} (l : list A) :
  filter P (f <$> l) = f <$> filter (λ a, P (f a)) l.
Proof.
  induction l as [|a l IH]; [done|].
  rewrite fmap_cons, !filter_cons, IH. by destruct (decide (P (f a))).
Qed.

Lemma entries_map (o : Js.record) :
  map (λ '(month, participants), (month, participants)) o = o.
Proof. induction o as [|[k v] o IH]; simpl; [done|by rewrite IH]. Qed.

(** What the reduction builds, in the terms of the code: one entry per
    month name, holding the sum over the selected events that
    [toLocaleString] puts in that month. *)
Lemma monthly_entries
    (LocalTZA : Z → Z) (monthLong : Js.Month → string)
    (monthLong_inj : ∀ m1 m2, monthLong m1 = monthLong m2 → m1 = m2)
    (campusId year : Z) (db : Database) :
  let month_of e :=
    Js.MonthFromTime (LocalTime LocalTZA (events.dateTime e)) in
  let selected :=
    filter
      (λ e, events.campusId e = campusId
            ∧ getFullYear LocalTZA (events.dateTime e) = year)
      (tbl_events db) in
  ∃ result,
    getMonthlyParticipation LocalTZA monthLong campusId year db
    = (Returned result, db) ∧
    NoDup result.*1 ∧
    ∀ name participants,
      (name, participants) ∈ result ↔
      ∃ m, name = monthLong m ∧
           (∃ e, e ∈ selected ∧ month_of e = m) ∧
           participants
           = foldr (λ e s, Js.or_zero (events.participantCount e) + s) 0
               (filter (λ e, month_of e = m) selected).
Proof.
  intros month_of selected.
  unfold getMonthlyParticipation, sql.select, mbind, Query_bind.
  rewrite entries_map.
  assert (Hsel :
    filter (λ event : Z * option Z,
              getFullYear LocalTZA event.1 =? year)
      (map (λ e, (events.dateTime e, events.participantCount e))
         (sql.where_ (λ e, events.campusId e =? campusId) (tbl_events db)))
    = (λ e, (events.dateTime e, events.participantCount e)) <$> selected).
  { change (map ?f ?l) with (f <$> l). rewrite filter_fmap. f_equal.
    unfold sql.where_. rewrite list_filter_filter. apply list_filter_iff.
    intros e. simpl. rewrite !Is_true_true. lia. }
  rewrite Hsel. clear Hsel.
  set (key := λ event : Z * option Z,
                toLocaleString_month LocalTZA monthLong event.1).
  set (val := λ event : Z * option Z, Js.or_zero event.2).
  eexists. split; [reflexivity|].
  assert (Hnd : ∀ l, NoDup
    (fold_left
       (λ (acc : Js.record) (event : Z * option Z),
          Js.record_set acc (key event)
            (Js.or_zero (Js.record_get acc (key event)) + val event))
       l []).*1).
  { intros l. apply (fold_tally_NoDup key val). constructor. }
  split; [apply Hnd|].
  intros name participants.
  rewrite record_get_elem_of by apply Hnd.
  rewrite (fold_tally_get key val), filter_fmap. simpl.
  assert (Hmonth : ∀ m,
    filter (λ e, key (events.dateTime e, events.participantCount e)
                 = monthLong m) selected
    = filter (λ e, month_of e = m) selected).
  { intros m. apply list_filter_iff. intros e. unfold key. simpl.
    unfold toLocaleString_month.
    split; [apply monthLong_inj|intros <-; reflexivity]. }
  split.
  - destruct (filter _ selected) as [|e rows] eqn:Hrows; [done|].
    intros [= <-].
    assert (He : e ∈ e :: rows) by apply list_elem_of_here.
    rewrite <- Hrows in He. apply list_elem_of_filter in He as [Hname He].
    subst name.
    exists (month_of e). split; [reflexivity|]. split; [by exists e|].
    rewrite <- Hmonth.
    change (monthLong (month_of e))
      with (key (events.dateTime e, events.participantCount e)).
    rewrite Hrows. simpl.
    change (list_fmap _ _ ?f rows) with (f <$> rows). by rewrite foldr_fmap.
  - intros (m & -> & (e & He & Hm) & ->).
    rewrite Hmonth.
    assert (He' : e ∈ filter (λ e, month_of e = m) selected)
      by (by apply list_elem_of_filter).
    destruct (filter _ selected) as [|e0 rows]; [by apply elem_of_nil in He'|].
    simpl. change (list_fmap _ _ ?f rows) with (f <$> rows).
    by rewrite foldr_fmap.
Qed.

(** *** The calendar fields against the calendar of the specification *)

Lemma YearFromDay_spec (d : Z) :
  days_before_year (Js.YearFromDay d) ≤ d
  < days_before_year (Js.YearFromDay d + 1).
Proof.
  unfold Js.YearFromDay, days_before_year. cbv zeta.
  match goal with
  | |- context [if ?a <? ?b then _ else _] => destruct (Z.ltb_spec a b)
  end; Z.div_mod_to_equations; lia.
Qed.

Lemma days_before_year_mono (a b : Z) :
  a ≤ b → days_before_year a ≤ days_before_year b.
Proof.
  intros Hab. unfold days_before_year.
  destruct (Z.eq_dec a b) as [->|Hne]; [lia|].
  pose proof (Z.div_le_mono (a - 1) (b - 1) 4 ltac:(lia) ltac:(lia)).
  pose proof (Z.div_le_mono (a - 1) (b - 1) 400 ltac:(lia) ltac:(lia)).
  assert ((b - 1) / 100 - (a - 1) / 100 ≤ b - a)
    by (Z.div_mod_to_equations; lia).
  lia.
Qed.

Lemma YearFromTime_in_year (t y : Z) : Js.YearFromTime t = y ↔ in_year y t.
Proof.
  unfold Js.YearFromTime, in_year, Js.Day, Js.msPerDay.
  pose proof (YearFromDay_spec (t / 86400000)) as Hspec.
  split.
  - intros <-. Z.div_mod_to_equations. lia.
  - intros Hy.
    destruct (Z.lt_trichotomy (Js.YearFromDay (t / 86400000)) y)
      as [Hlt|[Heq|Hgt]]; [|exact Heq|].
    + pose proof (days_before_year_mono
                    (Js.YearFromDay (t / 86400000) + 1) y ltac:(lia)).
      Z.div_mod_to_equations. lia.
    + pose proof (days_before_year_mono
                    (y + 1) (Js.YearFromDay (t / 86400000)) ltac:(lia)).
      Z.div_mod_to_equations. lia.
Qed.

Lemma DayFromYear_alt (y : Z) : Js.DayFromYear y = days_before_year y.
Proof.
  unfold Js.DayFromYear, days_before_year. Z.div_mod_to_equations. lia.
Qed.

Lemma year_length (y : Z) :
  days_before_year (y + 1)
  = days_before_year y + (if leap_year y then 366 else 365).
Proof.
  unfold days_before_year, leap_year.
  destruct (Z.eqb_spec (y mod 4) 0), (Z.eqb_spec (y mod 100) 0),
    (Z.eqb_spec (y mod 400) 0);
    cbn [andb orb negb]; Z.div_mod_to_equations; lia.
Qed.

Lemma DaysInYear_leap (y : Z) :
  Js.DaysInYear y = if leap_year y then 366 else 365.
Proof.
  unfold Js.DaysInYear, leap_year.
  destruct (Z.eqb_spec (y mod 4) 0), (Z.eqb_spec (y mod 100) 0),
    (Z.eqb_spec (y mod 400) 0);
    cbn [andb orb negb]; try reflexivity; Z.div_mod_to_equations; lia.
Qed.

Lemma MonthFromTime_in_month (t y : Z) (m : Js.Month) :
  in_year y t → Js.MonthFromTime t = m ↔ in_month y m t.
Proof.
  intros Hy. pose proof Hy as Hyear. apply YearFromTime_in_year in Hyear.
  unfold Js.MonthFromTime, Js.InLeapYear, Js.DayWithinYear.
  rewrite Hyear, DayFromYear_alt, DaysInYear_leap.
  unfold in_year in Hy. rewrite year_length in Hy.
  unfold in_month, first_day, Js.Day, Js.msPerDay.
  set (d := t / 86400000) in *.
  assert (Hd : 86400000 * d ≤ t < 86400000 * (d + 1))
    by (subst d; Z.div_mod_to_equations; lia).
  clearbody d. set (first := days_before_year y) in *. clearbody first.
  destruct m;
    match goal with
    | |- context [months_before ?m'] =>
        let ms := eval vm_compute in (months_before m') in
        change (months_before m') with ms
    end;
    cbn [fmap list_fmap foldr month_length];
    destruct (leap_year y); cbn [Z.eqb Pos.eqb];
    repeat match goal with
           | |- context [?a <? ?b] => destruct (Z.ltb_spec a b)
           end;
    (split; [intros _; lia|intros ?; first [reflexivity|exfalso; lia]])
    || (split; [discriminate|intros ?; exfalso; lia]).
Qed.

Lemma filter_ext_elem {A : Type} (P Q : A → Prop)
    `{!∀ a, Decision (P a)} `{!∀ a, Decision (Q a)} (l : list A) :
  (∀ a, a ∈ l → P a ↔ Q a) → filter P l = filter Q l.
Proof.
  induction l as [|a l IH]; intros HPQ; [done|].
  rewrite !filter_cons, IH
    by (intros b Hb; apply HPQ; by apply list_elem_of_further).
  pose proof (HPQ a (list_elem_of_here _ _)) as Ha.
  destruct (decide (P a)), (decide (Q a)); tauto || done.
Qed.

(** C2.  With month names that tell the twelve months apart, and a
    campus id within 32 bits, [getMonthlyParticipation] returns one entry
    per month name, and the entries are exactly these: for each month of
    year [year] that holds, in local time, the [dateTime] of at least one
    event of the campus, the month's name with the sum of those events'
    participant counts, null counted as zero.  A month without such an
    event has no entry.  Years and months are those of the Gregorian
    calendar, as intervals of days. *)
Theorem getMonthlyParticipation_sums_per_month
    (LocalTZA : Z → Z) (monthLong : Js.Month → string)
    (monthLong_inj : ∀ m1 m2, monthLong m1 = monthLong m2 → m1 = m2)
    (campusId year : Z) (db : Database) :
  sql.in_int4 campusId = true →
  let selected := events_of_year LocalTZA campusId year db in
  ∃ result,
    getMonthlyParticipation LocalTZA monthLong campusId year db
    = (Returned result, db) ∧
    NoDup result.*1 ∧
    ∀ name participants,
      (name, participants) ∈ result ↔
      ∃ m, name = monthLong m ∧
           (∃ e, e ∈ selected
                 ∧ in_month year m
                     (events.dateTime e + LocalTZA (events.dateTime e))) ∧
           participants = month_participants LocalTZA year m selected.
Proof.
  intros _ selected.
  destruct (monthly_entries LocalTZA monthLong monthLong_inj campusId year db)
    as (result & Hcall & Hnd & Hentries).
  exists result. split; [exact Hcall|]. split; [exact Hnd|].
  assert (Hsel :
    filter
      (λ e, events.campusId e = campusId
            ∧ getFullYear LocalTZA (events.dateTime e) = year)
      (tbl_events db)
    = selected).
  { apply list_filter_iff. intros e. unfold getFullYear, LocalTime.
    by rewrite YearFromTime_in_year. }
  rewrite Hsel in Hentries.
  assert (Hmonth : ∀ m e, e ∈ selected →
    Js.MonthFromTime (LocalTime LocalTZA (events.dateTime e)) = m
    ↔ in_month year m (events.dateTime e + LocalTZA (events.dateTime e))).
  { intros m e [[_ He] _]%list_elem_of_filter.
    by apply MonthFromTime_in_month. }
  intros name participants. rewrite Hentries.
  split; intros (m & Hname & (e & He & Hm) & Hsum); exists m;
    (split; [exact Hname|]); (split; [exists e; split; [exact He|]|]).
  - by apply Hmonth.
  - rewrite Hsum. unfold month_participants.
    by rewrite (filter_ext_elem _ _ _ (Hmonth m)).
  - by apply Hmonth.
  - rewrite Hsum. unfold month_participants.
    by rewrite (filter_ext_elem _ _ _ (Hmonth m)).
Qed.

(** ** Payload processing *)

Lemma get_insert (o : Js.object) (k k' : string) (v : Js.value) :
  Js.get (<[k:=v]> o) k' = if decide (k = k') then v else Js.get o k'.
Proof.
  unfold Js.get. rewrite lookup_insert. by destruct (decide (k = k')).
Qed.

Section processing.
Variable parse : string → option Z.

Lemma processedData_dateTime (o : Js.object) :
  Js.get (processedData parse o) "dateTime"
  = Date_ parse (Js.get o "dateTime").
Proof. unfold processedData. by rewrite !get_insert. Qed.

Lemma processedData_endDateTime (o : Js.object) :
  Js.get (processedData parse o) "endDateTime"
  = if Js.ToBoolean (Js.get o "endDateTime")
    then Date_ parse (Js.get o "endDateTime")
    else Js.Null.
Proof. unfold processedData. by rewrite !get_insert. Qed.

Lemma processedData_other (o : Js.object) (k : string) :
  k ≠ "dateTime"%string → k ≠ "endDateTime"%string →
  Js.get (processedData parse o) k = Js.get o k.
Proof.
  intros ? ?. unfold processedData.
  rewrite !get_insert, !decide_False; done.
Qed.

Lemma processedUpdates_dateTime (o : Js.object) :
  Js.get (processedUpdates parse o) "dateTime"
  = if Js.ToBoolean (Js.get o "dateTime")
    then Date_ parse (Js.get o "dateTime")
    else Js.Undefined.
Proof. unfold processedUpdates. by rewrite !get_insert. Qed.

Lemma processedUpdates_endDateTime (o : Js.object) :
  Js.get (processedUpdates parse o) "endDateTime"
  = if Js.ToBoolean (Js.get o "endDateTime")
    then Date_ parse (Js.get o "endDateTime")
    else Js.Undefined.
Proof. unfold processedUpdates. by rewrite !get_insert. Qed.

Lemma processedUpdates_other (o : Js.object) (k : string) :
  k ≠ "dateTime"%string → k ≠ "endDateTime"%string →
  Js.get (processedUpdates parse o) k = Js.get o k.
Proof.
  intros ? ?. unfold processedUpdates.
  rewrite !get_insert, !decide_False; done.
Qed.

Lemma timestamp_of_Date (name : string) (v : Js.value) (t : Z) :
  Js.new_Date parse v = Some t →
  column.timestamp name (Date_ parse v) = Returned (SqlVal t).
Proof. intros Ht. unfold Date_. by rewrite Ht. Qed.

Lemma date_ok_Some (v : Js.value) :
  date_ok parse v = true →
  ∃ t, Js.new_Date parse v = Some t ∧ sql.in_timestamp t = true.
Proof.
  unfold date_ok. destruct (Js.new_Date parse v) as [t|]; [|done].
  intros Ht. by exists t.
Qed.
End processing.

Lemma is_undefined_true (v : Js.value) :
  Js.is_undefined v = true ↔ v = Js.Undefined.
Proof. by destruct v. Qed.

Lemma sets_nothing_get (o : Js.object) (k : string) :
  sets_nothing o = true → Js.get o k = Js.Undefined.
Proof.
  unfold sets_nothing, Js.get. intros Hall.
  destruct (o !! k) as [v|] eqn:Hk; [|done]. simpl.
  rewrite forallb_forall in Hall.
  apply is_undefined_true, (Hall (k, v)).
  apply list_elem_of_In. by apply elem_of_map_to_list.
Qed.

Lemma accepts_all_app (ps qs : list sql.param) :
  sql.accepts_all (ps ++ qs) = (_ ← sql.accepts_all ps; sql.accepts_all qs).
Proof.
  induction ps as [|p ps IH]; [done|].
  unfold sql.accepts_all in *. simpl. rewrite IH.
  by destruct (sql.accepts p).
Qed.

Lemma accepts_all_Integer (n : Z) :
  sql.in_int4 n = true → sql.accepts_all [sql.Integer n] = Returned ().
Proof. intros Hn. unfold sql.accepts_all. simpl. by rewrite Hn. Qed.

Ltac split_andb :=
  repeat match goal with
    | H : _ && _ = true |- _ => apply andb_true_iff in H as [? ?]
    end.

(** ** Properties of the event writes *)

Lemma optional_integer_cell (name : string) (v : Js.value) :
  optional_integer v = true →
  ∃ c,
    column.integer name v = Returned c ∧
    sql.accepts_all (cell_params sql.Integer c) = Returned () ∧
    is_omitted c = Js.is_undefined v.
Proof.
  destruct v as [| | |n| |]; try done; intros Hv.
  - by exists Omitted.
  - by exists SqlNull.
  - exists (SqlVal n). repeat split. by apply accepts_all_Integer.
Qed.

Lemma accepts_all_Timestamp (t : Z) :
  sql.in_timestamp t = true → sql.accepts_all [sql.Timestamp t] = Returned ().
Proof. intros Ht. unfold sql.accepts_all. simpl. by rewrite Ht. Qed.

Lemma accepts_all_Text (s : string) :
  sql.text_ok s = true → sql.accepts_all [sql.Text s] = Returned ().
Proof. intros Hs. unfold sql.accepts_all. simpl. by rewrite Hs. Qed.

Lemma createEvent_stores
    (parse : string → option Z) (eventData : Js.object) (db : Database) :
  InsertEvent_ok parse db eventData = true →
  ∃ created db',
    createEvent parse eventData db = (Returned (Some created), db') ∧
    tbl_events db' = tbl_events db ++ [created] ∧
    events.id created = seq_events db ∧
    Js.get eventData "campusId" = Js.Num (events.campusId created) ∧
    Js.get eventData "programType" = Js.Str (events.programType created) ∧
    Js.new_Date parse (Js.get eventData "dateTime")
    = Some (events.dateTime created) ∧
    events.endDateTime created
    = (if Js.ToBoolean (Js.get eventData "endDateTime")
       then Js.new_Date parse (Js.get eventData "endDateTime")
       else None) ∧
    (Js.ToBoolean (Js.get eventData "endDateTime") = false →
     processedData parse eventData !! "endDateTime" = Some Js.Null).
Proof.
  unfold InsertEvent_ok. intros Hok.
  apply andb_true_iff in Hok as [Hok Hpayload].
  apply andb_true_iff in Hok as [Hok Hfree].
  apply andb_true_iff in Hok as [Hid Hseq].
  apply is_undefined_true in Hid. apply negb_true_iff in Hfree.
  destruct (Js.get eventData "campusId") as [| | |c| |] eqn:Hc; try done.
  destruct (Js.get eventData "programType") as [| | | |p|] eqn:Hp; try done.
  apply andb_true_iff in Hpayload as [Hok Hendok].
  apply andb_true_iff in Hok as [Hok Hdate].
  apply andb_true_iff in Hok as [Hok Hrating].
  apply andb_true_iff in Hok as [Hok Hcount].
  apply andb_true_iff in Hok as [Hok Htext].
  apply andb_true_iff in Hok as [Hrange Href].
  destruct (date_ok_Some parse _ Hdate) as (t & Ht & Htr).
  assert (Hend : ∃ c_end,
    column.timestamp "endDateTime"
      (Js.get (processedData parse eventData) "endDateTime")
    = Returned c_end ∧
    sql.accepts_all (cell_params sql.Timestamp c_end) = Returned () ∧
    nullable c_end None
    = (if Js.ToBoolean (Js.get eventData "endDateTime")
       then Js.new_Date parse (Js.get eventData "endDateTime")
       else None)).
  { rewrite processedData_endDateTime.
    destruct (Js.ToBoolean (Js.get eventData "endDateTime")).
    - destruct (date_ok_Some parse _ Hendok) as (t' & Ht' & Htr').
      exists (SqlVal t'). rewrite (timestamp_of_Date _ _ _ t'), Ht' by done.
      repeat split. by apply accepts_all_Timestamp.
    - by exists SqlNull. }
  destruct Hend as (c_end & Hcell & Hendp & Hend).
  destruct (optional_integer_cell "participantCount" _ Hcount)
    as (c_n & Hn & Hnp & _).
  destruct (optional_integer_cell "rating" _ Hrating) as (c_r & Hr & Hrp & _).
  eexists
    (events.mk (seq_events db) c p t (nullable c_end None)
       (nullable c_n None) (nullable c_r None)), _.
  split.
  { unfold createEvent, insert_events, mbind, Query_bind, events_cells.
    rewrite processedData_dateTime, Hcell.
    rewrite !processedData_other by done.
    rewrite Hid, Hc, Hp, Hn, Hr, (timestamp_of_Date _ _ _ t) by done.
    simpl. unfold events_params. simpl.
    rewrite !accepts_all_app, Hendp, Hnp, Hrp.
    rewrite Hrange, Htext, Htr, accepts_all_Integer by done.
    simpl. unfold events_row, has_event in *. simpl.
    rewrite Hfree, Href. reflexivity. }
  simpl. do 6 (split; [done|]).
  intros Hfalsy. unfold processedData.
  rewrite lookup_insert_eq. by rewrite Hfalsy.
Qed.

Lemma processedData_falsy_endDateTime
    (parse parse' : string → option Z) (eventData : Js.object) :
  Js.ToBoolean (Js.get eventData "endDateTime") = false →
  Js.new_Date parse' (Js.get eventData "dateTime")
  = Js.new_Date parse (Js.get eventData "dateTime") →
  processedData parse' eventData = processedData parse eventData.
Proof.
  intros Hfalsy Hdate. unfold processedData, Date_.
  by rewrite Hfalsy, Hdate.
Qed.


(** C10.  When the payload's [endDateTime] is present but falsy, and the
    payload can otherwise be stored, [createEvent] returns the created
    record with a null [endDateTime]; and the call does not depend on what
    the date parser would make of anything but [dateTime]: any parser
    that agrees on [dateTime] gives the same call. *)
Theorem createEvent_falsy_endDateTime_stored_null
    (parse : string → option Z) (eventData : Js.object) (v : Js.value)
    (db : Database) :
  eventData !! "endDateTime" = Some v →
  Js.ToBoolean v = false →
  InsertEvent_ok parse db eventData = true →
  (∃ created db',
     createEvent parse eventData db = (Returned (Some created), db') ∧
     tbl_events db' = tbl_events db ++ [created] ∧
     events.endDateTime created = None) ∧
  (∀ parse',
     Js.new_Date parse' (Js.get eventData "dateTime")
     = Js.new_Date parse (Js.get eventData "dateTime") →
     createEvent parse' eventData db = createEvent parse eventData db).
Proof.
  intros Hpresent Hfalsy Hok.
  assert (Hget : Js.ToBoolean (Js.get eventData "endDateTime") = false).
  { unfold Js.get. by rewrite Hpresent. }
  split.
  - destruct (createEvent_stores parse eventData db Hok)
      as (created & db' & Hcall & Htbl & _ & _ & _ & _ & Hend & _).
    exists created, db'. by rewrite Hget in Hend.
  - intros parse' Hdate. unfold createEvent.
    by rewrite (processedData_falsy_endDateTime parse parse').
Qed.

Lemma update_where_spec (p : Event → bool) (f : Event → outcome Event)
    (Q : Event → Event → Prop) (rows : list Event) :
  (∀ e, ∃ e', f e = Returned e' ∧ Q e e') →
  ∃ tbl ret,
    update_where p f rows = Returned (tbl, ret) ∧
    Forall2 (λ e e', if p e then Q e e' else e' = e) rows tbl ∧
    match ret !! 0%nat with
    | None => ∀ e, e ∈ rows → p e = false
    | Some e' => e' ∈ tbl ∧ ∃ e, e ∈ rows ∧ p e = true ∧ Q e e'
    end.
Proof.
  intros Hf. induction rows as [|e rows (tbl & ret & Hrun & Hall & Hret)].
  - exists [], []. repeat split; [constructor|].
    intros e He. by apply elem_of_nil in He.
  - simpl. destruct (p e) eqn:Hp.
    + destruct (Hf e) as (e' & -> & HQ).
      exists (e' :: tbl), (e' :: ret). simpl. rewrite Hrun. simpl.
      split; [done|]. split.
      * constructor; [by rewrite Hp|done].
      * split; [apply list_elem_of_here|].
        exists e. split; [apply list_elem_of_here|done].
    + exists (e :: tbl), ret. rewrite Hrun. simpl.
      split; [done|]. split.
      * constructor; [by rewrite Hp|done].
      * destruct (ret !! 0%nat) as [e'|].
        -- destruct Hret as (Hin & e0 & He0 & Hrest).
           split; [by apply list_elem_of_further|].
           exists e0. split; [by apply list_elem_of_further|done].
        -- intros e0 [->|He0]%elem_of_cons; [done|by apply Hret].
Qed.

Lemma processedUpdates_row
    (parse : string → option Z) (db : Database) (updates : Js.object) :
  Partial_InsertEvent_ok parse db updates = true →
  sets_nothing (processedUpdates parse updates) = false ∧
  ∃ v,
    events_cells (processedUpdates parse updates) = Returned v ∧
    sets_no_column v = false ∧
    sql.accepts_all (events_params v) = Returned () ∧
    ∀ e, ∃ e',
      events_row db (events.id e) (Some e) v = Returned e' ∧
      partial_update parse updates e e'.
Proof.
  unfold Partial_InsertEvent_ok. intros Hok.
  apply andb_true_iff in Hok as [Hok Hsets].
  apply andb_true_iff in Hok as [Hok Hend].
  apply andb_true_iff in Hok as [Hok Hdate].
  apply andb_true_iff in Hok as [Hok Hrating].
  apply andb_true_iff in Hok as [Hok Hcount].
  apply andb_true_iff in Hok as [Hok Htype].
  apply andb_true_iff in Hok as [Hid Hcampus].
  apply is_undefined_true in Hid.
  split.
  { apply existsb_exists in Hsets as (c & _ & Hc).
    destruct (sets_nothing _) eqn:Hnothing; [|done].
    by rewrite (sets_nothing_get _ c Hnothing) in Hc. }
  unfold events_columns in Hsets. cbn [existsb] in Hsets.
  rewrite processedUpdates_dateTime, processedUpdates_endDateTime in Hsets.
  rewrite !processedUpdates_other in Hsets by done.
  unfold events_cells, partial_update.
  rewrite processedUpdates_dateTime, processedUpdates_endDateTime.
  rewrite !processedUpdates_other by done.
  rewrite Hid.
  assert (Hts : ∀ name d,
    negb (Js.ToBoolean d) || date_ok parse d = true →
    ∃ c,
      column.timestamp name
        (if Js.ToBoolean d then Date_ parse d else Js.Undefined)
      = Returned c ∧
      c ≠ SqlNull ∧
      sql.accepts_all (cell_params sql.Timestamp c) = Returned () ∧
      is_omitted c
      = Js.is_undefined
          (if Js.ToBoolean d then Date_ parse d else Js.Undefined) ∧
      ∀ old,
        (if Js.ToBoolean d then Js.new_Date parse d else old)
        = nullable c old).
  { intros name d Hd. destruct (Js.ToBoolean d).
    - destruct (date_ok_Some parse d Hd) as (t & Ht & Htr).
      exists (SqlVal t). rewrite (timestamp_of_Date _ _ _ t), Ht by done.
      repeat split; [done|]. by apply accepts_all_Timestamp.
    - by exists Omitted. }
  destruct (Hts "dateTime"%string _ Hdate) as (c_d & -> & Hd' & Hdp & Hdo & Hd).
  destruct (Hts "endDateTime"%string _ Hend) as (c_e & -> & _ & Hep & Heo & He).
  clear Hts Hdate Hend.
  destruct (optional_integer_cell "participantCount" _ Hcount)
    as (c_n & Hcn & Hnp & Hno).
  destruct (optional_integer_cell "rating" _ Hrating)
    as (c_r & Hcr & Hrp & Hro).
  rewrite <- Hdo, <- Heo, <- Hno, <- Hro in Hsets.
  assert (Hn : ∀ old,
    nullable c_n old
    = match Js.get updates "participantCount" with
      | Js.Num n => Some n
      | Js.Null => None
      | _ => old
      end).
  { intros old. clear Hsets Hno.
    destruct (Js.get updates "participantCount"); try done;
      simpl in Hcn; by simplify_eq. }
  assert (Hr : ∀ old,
    nullable c_r old
    = match Js.get updates "rating" with
      | Js.Num n => Some n
      | Js.Null => None
      | _ => old
      end).
  { intros old. clear Hsets Hro.
    destruct (Js.get updates "rating"); try done;
      simpl in Hcr; by simplify_eq. }
  rewrite Hcn, Hcr. clear Hcount Hrating Hcn Hcr.
  destruct (Js.get updates "campusId") as [| | |c| |]; try done;
  destruct (Js.get updates "programType") as [| | | |s|]; try done;
  simpl in Hsets;
  (eexists; split; [reflexivity|];
   split; [unfold sets_no_column; simpl;
           apply not_true_iff_false; intros Hall;
           repeat (apply andb_true_iff in Hall as [Hall ?]);
           repeat match goal with
                  | H : is_omitted _ = true |- _ => rewrite H in Hsets
                  end;
           done|];
   split; [unfold events_params; simpl;
           rewrite !accepts_all_app, Hdp, Hep, Hnp, Hrp; simpl;
           try (apply andb_true_iff in Hcampus as [Hcampus ?]);
           repeat match goal with
                  | H : ?b = true |- context [if ?b then _ else _] =>
                      rewrite H
                  end;
           reflexivity|];
   intros [i ec ep ed ee en er];
   unfold events_row; simpl;
   rewrite !bool_decide_true by done; simpl;
   destruct c_d as [| |t]; try done; simpl;
   rewrite ?bool_decide_true by done; simpl;
   try (apply andb_true_iff in Hcampus as [? Hcampus]);
   rewrite ?Hcampus, ?orb_true_r;
   (eexists; split; [reflexivity|]); simpl;
   rewrite (Hd (Some ed)), (He ee), Hn, Hr; done).
Qed.

(** C1, as amended.  For an id within 32 bits and a payload it can apply,
    [updateEvent] returns, and rewrites exactly the rows carrying the id,
    each by [partial_update]: a column whose property is absent keeps its
    value; [dateTime] and [endDateTime] are coerced and written when
    truthy and kept otherwise, null included; on the other nullable
    columns null is written.  It returns a rewritten row, or the absent
    marker when no row carries the id. *)
Theorem updateEvent_partial_update
    (parse : string → option Z) (id : Z) (updates : Js.object)
    (db : Database) :
  sql.in_int4 id = true →
  Partial_InsertEvent_ok parse db updates = true →
  ∃ result db',
    updateEvent parse id updates db = (Returned result, db') ∧
    Forall2
      (λ e e',
         if events.id e =? id then partial_update parse updates e e'
         else e' = e)
      (tbl_events db) (tbl_events db') ∧
    match result with
    | None => ∀ e, e ∈ tbl_events db → events.id e ≠ id
    | Some e' =>
        e' ∈ tbl_events db' ∧
        ∃ e, e ∈ tbl_events db ∧ events.id e = id ∧
             partial_update parse updates e e'
    end.
Proof.
  intros Hid Hok.
  destruct (processedUpdates_row parse db updates Hok)
    as (Hsets & v & Hcells & Hcolumn & Hparams & Hrow).
  destruct (update_where_spec (λ e, events.id e =? id)
              (λ e, events_row db (events.id e) (Some e) v)
              (partial_update parse updates) (tbl_events db) Hrow)
    as (tbl & ret & Hrun & Hall & Hret).
  exists (ret !! 0%nat), (with_events db tbl (seq_events db)).
  split; [|split].
  - unfold updateEvent, update_events, mbind, Query_bind.
    rewrite Hsets, Hcells, Hcolumn, accepts_all_app, Hparams.
    simpl. rewrite Hid. simpl. by rewrite Hrun.
  - done.
  - destruct (ret !! 0%nat) as [e'|].
    + destruct Hret as (Hin & e & He & Hid' & Hupd).
      split; [done|]. exists e. split; [done|]. split; [lia|done].
    + intros e He Hid'. specialize (Hret e He). simpl in Hret. lia.
Qed.

(** ** Worked examples *)

Lemma en_month_inj (m1 m2 : Js.Month) : en_month m1 = en_month m2 → m1 = m2.
Proof. destruct m1, m2; simpl; intros H; try reflexivity; discriminate H. Qed.




(** The specification's example for the date range: events at 09:00,
    12:00 and 15:00, queried for 10:00 to 15:00. *)
Example getEventsInDateRange_example :
  (getEventsInDateRange 1 1709632800000 1709650800000 day_db).1
  = Returned
      [events.mk 1 1 "lecture" 1709640000000 None None None;
       events.mk 3 1 "lecture" 1709650800000 None None None].
Proof. reflexivity. Qed.

(** The specification's example for the monthly sums: two March events
    with counts 10 and 5. *)
Example getMonthlyParticipation_example :
  (getMonthlyParticipation utc en_month 1 2024 sample_db).1
  = Returned [("March"%string, 15)].
Proof. vm_compute. reflexivity. Qed.

(** Five sessions, limit 2: the two newest, newest first. *)
Example getChatHistory_example :
  (getChatHistory 1 (Some 2%nat) sample_db).1
  = Returned [chatSessions.mk 2 1 5000; chatSessions.mk 4 1 4000].
Proof. reflexivity. Qed.

(** An update whose only property is a null [endDateTime] is left with
    nothing to set. *)
Example updateEvent_nothing_to_set :
  updateEvent sample_parse 2 {[ "endDateTime"%string := Js.Null ]} sample_db
  = (Thrown NoValuesToSet, sample_db).
Proof. vm_compute. reflexivity. Qed.

Example deleteEvent_example :
  ∃ db', deleteEvent 2 sample_db = (Returned true, db') ∧
         (deleteEvent 2 db').1 = Returned false ∧
         (deleteEvent 9 sample_db).1 = Returned false.
Proof. eexists. split; [reflexivity|]. split; reflexivity. Qed.

(** A payload that brings its own id is stored under it, and the
    sequence stays where it was. *)
Example createEvent_with_id :
  createEvent sample_parse (<["id" := Js.Num 7]> new_event) sample_db
  = (Returned
       (Some
          (events.mk 7 1 "workshop" 1719792000000 (Some 1710959400000)
             (Some 12) None)),
     with_events sample_db
       (tbl_events sample_db
        ++ [events.mk 7 1 "workshop" 1719792000000 (Some 1710959400000)
              (Some 12) None])
       4).
Proof. vm_compute. reflexivity. Qed.

(** An update that sets the id gives the row its new key. *)
Example updateEvent_with_id :
  ∃ db',
    updateEvent sample_parse 2 (<["id" := Js.Num 7]> count_update) sample_db
    = (Returned
         (Some
            (events.mk 7 1 "seminar" 1710959400000 (Some 1710966600000)
               (Some 7) (Some 4))),
       db') ∧
    getEvent 2 db' = (Returned None, db').
Proof. eexists. split; vm_compute; reflexivity. Qed.

(** Values the store does not take. *)
Example createEvent_wide_count :
  createEvent sample_parse
    (<["participantCount" := Js.Num 2147483648]> new_event) sample_db
  = (Thrown (OutOfRange "integer"), sample_db).
Proof. vm_compute. reflexivity. Qed.

Example createEvent_late_date :
  createEvent sample_parse
    (<["dateTime" := Js.Num 253402300800000]> new_event) sample_db
  = (Thrown (OutOfRange "timestamp"), sample_db).
Proof. vm_compute. reflexivity. Qed.

(** An update whose only property names no column gets past [set] and
    fails in the store. *)
Example updateEvent_no_column :
  updateEvent sample_parse 2 {[ "colour"%string := Js.Str "red" ]} sample_db
  = (Thrown SyntaxError, sample_db).
Proof. vm_compute. reflexivity. Qed.

Ltac elem_of_cases H :=
  repeat (apply elem_of_cons in H as [->|H]);
  [..|by apply elem_of_nil in H].

Lemma getMonthlyParticipation_sums_per_month_witness :
  (∀ m1 m2, en_month m1 = en_month m2 → m1 = m2) ∧
  sql.in_int4 1 = true ∧
  month_participants utc 2024 Js.March (events_of_year utc 1 2024 sample_db)
  = 15 ∧
  ∃ result,
    getMonthlyParticipation utc en_month 1 2024 sample_db
    = (Returned result, sample_db) ∧
    result = [("March"%string, 15)] ∧
    NoDup result.*1 ∧
    ∀ name participants,
      (name, participants) ∈ result ↔
      ∃ m, name = en_month m ∧
           (∃ e, e ∈ events_of_year utc 1 2024 sample_db
                 ∧ in_month 2024 m
                     (events.dateTime e + utc (events.dateTime e))) ∧
           participants
           = month_participants utc 2024 m
               (events_of_year utc 1 2024 sample_db).
Proof.
  split; [exact en_month_inj|].
  split; [reflexivity|].
  split; [vm_compute; reflexivity|].
  pose proof (getMonthlyParticipation_sums_per_month utc en_month
                en_month_inj 1 2024 sample_db eq_refl) as Hsums.
  cbv zeta in Hsums. destruct Hsums as (result & Hcall & Hnd & Hentries).
  exists result. split; [exact Hcall|].
  split; [|split; [exact Hnd|exact Hentries]].
  assert (Hrun :
    getMonthlyParticipation utc en_month 1 2024 sample_db
    = (Returned [("March"%string, 15)], sample_db))
    by (vm_compute; reflexivity).
  rewrite Hrun in Hcall. by injection Hcall.
Defined.



Lemma deleteEvent_true_iff_row_matched_witness :
  sql.in_int4 2 = true ∧
  ∃ deleted db',
    deleteEvent 2 sample_db = (Returned deleted, db') ∧
    (deleted = true ↔ ∃ e, e ∈ tbl_events sample_db ∧ events.id e = 2) ∧
    (∀ e, e ∈ tbl_events db' ↔ e ∈ tbl_events sample_db ∧ events.id e ≠ 2) ∧
    (deleteEvent 2 db').1 = Returned false.
Proof.
  split; [reflexivity|].
  apply deleteEvent_true_iff_row_matched. reflexivity.
Defined.



Lemma createEvent_falsy_endDateTime_stored_null_witness :
  blank_end_event !! "endDateTime" = Some (Js.Str "") ∧
  Js.ToBoolean (Js.Str "") = false ∧
  InsertEvent_ok sample_parse sample_db blank_end_event = true ∧
  (∃ created db',
     createEvent sample_parse blank_end_event sample_db
     = (Returned (Some created), db') ∧
     tbl_events db' = tbl_events sample_db ++ [created] ∧
     events.endDateTime created = None) ∧
  (∀ parse',
     Js.new_Date parse' (Js.get blank_end_event "dateTime")
     = Js.new_Date sample_parse (Js.get blank_end_event "dateTime") →
     createEvent parse' blank_end_event sample_db
     = createEvent sample_parse blank_end_event sample_db).
Proof.
  split; [vm_compute; reflexivity|].
  split; [reflexivity|].
  split; [vm_compute; reflexivity|].
  apply (createEvent_falsy_endDateTime_stored_null sample_parse
           blank_end_event (Js.Str "") sample_db); vm_compute; reflexivity.
Defined.

Lemma updateEvent_partial_update_witness :
  sql.in_int4 2 = true ∧
  Partial_InsertEvent_ok sample_parse sample_db count_update = true ∧
  ∃ result db',
    updateEvent sample_parse 2 count_update sample_db
    = (Returned result, db') ∧
    Forall2
      (λ e e',
         if events.id e =? 2
         then partial_update sample_parse count_update e e'
         else e' = e)
      (tbl_events sample_db) (tbl_events db') ∧
    match result with
    | None => ∀ e, e ∈ tbl_events sample_db → events.id e ≠ 2
    | Some e' =>
        e' ∈ tbl_events db' ∧
        ∃ e, e ∈ tbl_events sample_db ∧ events.id e = 2 ∧
             partial_update sample_parse count_update e e'
    end.
Proof.
  split; [reflexivity|].
  split; [vm_compute; reflexivity|].
  apply updateEvent_partial_update; vm_compute; reflexivity.
Defined.

(** C1 fails as stated: an [endDateTime] explicitly set to null is not
    written.  The call is the one made without the property, and the row
    keeps the end it had. *)
Lemma updateEvent_null_endDateTime_kept :
  null_end_update !! "endDateTime" = Some Js.Null ∧
  updateEvent sample_parse 2 null_end_update sample_db
  = updateEvent sample_parse 2 count_update sample_db ∧
  ∃ e',
    (updateEvent sample_parse 2 null_end_update sample_db).1
    = Returned (Some e') ∧
    events.participantCount e' = Some 7 ∧
    events.endDateTime e' = Some 1710966600000.
Proof.
  split; [vm_compute; reflexivity|].
  split; [vm_compute; reflexivity|].
  eexists. split; [vm_compute; reflexivity|]. split; reflexivity.
Qed.



(** C4 fails as stated: an id beyond 32 bits, which no row can carry,
    does not give [false].  The call throws. *)
Lemma deleteEvent_wide_id_throws :
  (∀ e, e ∈ tbl_events sample_db → events.id e ≠ 2147483648) ∧
  deleteEvent 2147483648 sample_db
  = (Thrown (OutOfRange "integer"), sample_db).
Proof.
  split; [|reflexivity].
  intros e He. elem_of_cases He; simpl; lia.
Qed.


(** ** Further properties of the reads *)

Lemma null_high_le_total (x y : option Z) :
  sql.null_high_le x y = true ∨ sql.null_high_le y x = true.
Proof. destruct x, y; simpl; auto. lia. Qed.

Lemma null_high_le_trans (x y z : option Z) :
  sql.null_high_le x y = true → sql.null_high_le y z = true →
  sql.null_high_le x z = true.
Proof. destruct x, y, z; simpl; try done. lia. Qed.

(** The first [n] rows of a sorted selection: they are sorted, there are
    [n] of them unless the selection is shorter, and no row left out
    ranks before a row kept. *)
Lemma limit_orderBy_spec {R : Type} (le : R → R → bool) (n : nat)
    (rows : list R) :
  (∀ a b, le a b = true ∨ le b a = true) →
  (∀ a b c, le a b = true → le b c = true → le a c = true) →
  let sorted := sql.orderBy le rows in
  sql.limit n sorted ++ drop n sorted ≡ₚ rows ∧
  length (sql.limit n sorted) = (n `min` length rows)%nat ∧
  StronglySorted (λ a b, le a b = true) (sql.limit n sorted) ∧
  (∀ r s, r ∈ sql.limit n sorted → s ∈ drop n sorted → le r s = true).
Proof.
  intros Htotal Htrans sorted. unfold sql.limit.
  assert (Hsorted : StronglySorted (λ a b, le a b = true)
                      (take n sorted ++ drop n sorted)).
  { rewrite take_drop. by apply orderBy_StronglySorted. }
  split; [|split; [|split]].
  - rewrite take_drop. apply orderBy_Permutation.
  - rewrite length_take. f_equal.
    apply Permutation_length, orderBy_Permutation.
  - by apply StronglySorted_app_1_l in Hsorted.
  - intros r s Hr Hs.
    apply (StronglySorted_app_1_elem_of _ _ _ _ _ Hsorted Hr Hs).
Qed.


Lemma rated_descending (rows : list Event) :
  StronglySorted
    (λ a b, sql.null_high_le (events.rating b) (events.rating a) = true)
    rows →
  StronglySorted (λ x y : Z, y ≤ x) (omap events.rating rows).
Proof.
  induction 1 as [|a rows _ IH Hall]; simpl; [constructor|].
  destruct (events.rating a) as [x|] eqn:Ha; [|done].
  constructor; [done|].
  apply Forall_forall. intros y (b & Hb & Hy)%list_elem_of_omap.
  rewrite Forall_forall in Hall. specialize (Hall b Hb).
  rewrite Hy in Hall. simpl in Hall. lia.
Qed.

(** X2.  For a campus id within 32 bits, [getTopRatedEvents] returns
    events of the campus, as many as the limit allows (5 when no limit is
    passed), and of the rated events the best: the ratings of the events
    returned come in descending order, and no rated event left out has a
    higher rating than a rated event returned.  Where the unrated events
    come is the store's choice and is not stated. *)
Theorem getTopRatedEvents_best_first
    (campusId : Z) (limit : option nat) (db : Database) :
  sql.in_int4 campusId = true →
  let mine := filter (λ e, events.campusId e = campusId) (tbl_events db) in
  ∃ result rest,
    getTopRatedEvents campusId limit db = (Returned result, db) ∧
    result ++ rest ≡ₚ mine ∧
    length result = (default 5 limit `min` length mine)%nat ∧
    StronglySorted (λ x y : Z, y ≤ x) (omap events.rating result) ∧
    (∀ r s x y, r ∈ result → s ∈ rest →
       events.rating r = Some x → events.rating s = Some y → y ≤ x).
Proof.
  intros _ mine.
  assert (Hwhere :
    sql.where_ (λ e, events.campusId e =? campusId) (tbl_events db) = mine).
  { apply where_as_filter. intros e. lia. }
  destruct (limit_orderBy_spec (sql.desc_nullable events.rating)
              (default 5%nat limit) mine) as (Hperm & Hlen & Hsorted & Hrest).
  { intros a b. apply null_high_le_total. }
  { intros a b c Hab Hbc. unfold sql.desc_nullable in *.
    by apply (null_high_le_trans _ (events.rating b)). }
  eexists _, _. split.
  { unfold getTopRatedEvents, sql.select. rewrite Hwhere. reflexivity. }
  split; [exact Hperm|]. split; [exact Hlen|]. split.
  - by apply rated_descending.
  - intros r s x y Hr Hs Hx Hy. specialize (Hrest r s Hr Hs).
    unfold sql.desc_nullable in Hrest. rewrite Hx, Hy in Hrest.
    simpl in Hrest. lia.
Qed.

(** X3.  For parameters the store takes, a query whose end lies before
    its start finds nothing. *)
Theorem getEventsInDateRange_reversed_bounds
    (campusId startDate endDate : Z) (db : Database) :
  sql.in_int4 campusId = true →
  sql.in_timestamp startDate = true →
  sql.in_timestamp endDate = true →
  endDate < startDate →
  getEventsInDateRange campusId startDate endDate db = (Returned [], db).
Proof.
  intros Hc Hs He Hlt. rewrite getEventsInDateRange_accepted by done.
  do 2 f_equal.
  assert (Hnone : sql.where_
    (λ e, (events.campusId e =? campusId)
          && (startDate <=? events.dateTime e)
          && (events.dateTime e <=? endDate)) (tbl_events db) = []).
  { unfold sql.where_.
    induction (tbl_events db) as [|e rows IH]; [done|].
    rewrite filter_cons, IH.
    destruct (decide _) as [Hin|]; [|done].
    apply Is_true_true in Hin. rewrite !andb_true_iff in Hin. lia. }
  by rewrite Hnone.
Qed.

(** X4.  For a campus without events, unknown campuses included, every
    read scoped to the campus returns the empty list, the campus id being
    within 32 bits and the bounds of a date range within the years the
    store takes. *)
Theorem campus_without_events_reads_empty
    (LocalTZA : Z → Z) (monthLong : Js.Month → string)
    (campusId : Z) (db : Database) :
  sql.in_int4 campusId = true →
  (∀ e, e ∈ tbl_events db → events.campusId e ≠ campusId) →
  getEventsByCampus campusId db = (Returned [], db) ∧
  (∀ startDate endDate,
     sql.in_timestamp startDate = true →
     sql.in_timestamp endDate = true →
     getEventsInDateRange campusId startDate endDate db = (Returned [], db)) ∧
  getEventTypeDistribution campusId db = (Returned [], db) ∧
  (∀ year,
     getMonthlyParticipation LocalTZA monthLong campusId year db
     = (Returned [], db)) ∧
  (∀ limit, getTopRatedEvents campusId limit db = (Returned [], db)).
Proof.
  intros Hrange Hnone.
  assert (Hwhere : ∀ p : Event → bool,
    (∀ e, p e = true → events.campusId e = campusId) →
    sql.where_ p (tbl_events db) = []).
  { intros p Hp. unfold sql.where_.
    induction (tbl_events db) as [|e rows IH]; [done|].
    rewrite filter_cons, IH.
    - destruct (decide _) as [Hin|]; [|done].
      apply Is_true_true, Hp in Hin.
      destruct (Hnone e); [apply list_elem_of_here|done].
    - intros e' He'. apply Hnone. by apply list_elem_of_further. }
  assert (Hwhere' :
    sql.where_ (λ e, events.campusId e =? campusId) (tbl_events db) = []).
  { apply Hwhere. intros e. lia. }
  split; [|split; [|split; [|split]]].
  - unfold getEventsByCampus, sql.select. by rewrite Hwhere'.
  - intros startDate endDate Hs He.
    rewrite getEventsInDateRange_accepted by done.
    rewrite Hwhere; [done|]. intros e. rewrite !andb_true_iff. lia.
  - unfold getEventTypeDistribution, sql.select, mbind, Query_bind.
    by rewrite Hwhere'.
  - intros year.
    unfold getMonthlyParticipation, sql.select, mbind, Query_bind.
    by rewrite Hwhere'.
  - intros limit. unfold getTopRatedEvents, sql.select.
    rewrite Hwhere'. simpl. unfold sql.limit. by rewrite take_nil.
Qed.

(** *** Grouped counts and sums *)

Lemma record_set_sum (o : Js.record) (k : string) (v : Z) :
  foldr Z.add 0 (Js.record_set o k (Js.or_zero (Js.record_get o k) + v)).*2
  = foldr Z.add 0 o.*2 + v.
Proof.
  induction o as [|[k0 v0] o IH]; csimpl.
  - lia.
  - destruct (String.eqb k0 k); csimpl; [lia|]. rewrite IH. lia.
Qed.

Lemma record_set_not_nil (o : Js.record) (k : string) (v : Z) :
  Js.record_set o k v ≠ [].
Proof. destruct o as [|[k0 v0] o]; simpl; [done|]. by destruct (String.eqb k0 k). Qed.

Section tally_sum.
Context {E : Type} (key : E → string) (val : E → Z).

Lemma fold_tally_sum (l : list E) (acc : Js.record) :
  foldr Z.add 0
    (fold_left
       (λ acc x,
          Js.record_set acc (key x)
            (Js.or_zero (Js.record_get acc (key x)) + val x))
       l acc).*2
  = foldr Z.add 0 acc.*2 + foldr (λ x s, val x + s) 0 l.
Proof.
  revert acc. induction l as [|x l IH]; intros acc; simpl; [lia|].
  rewrite IH, record_set_sum. lia.
Qed.

Lemma fold_tally_nil (l : list E) (acc : Js.record) :
  fold_left
    (λ acc x,
       Js.record_set acc (key x)
         (Js.or_zero (Js.record_get acc (key x)) + val x))
    l acc = [] ↔ l = [] ∧ acc = [].
Proof.
  revert acc. induction l as [|x l IH]; intros acc; simpl.
  - split; [done|by intros [_ ?]].
  - rewrite IH. split; [|by intros [? _]].
    intros [_ Hset]. by apply record_set_not_nil in Hset.
Qed.
End tally_sum.




(** X6.  For a campus id within 32 bits, the participants
    [getMonthlyParticipation] reports add up to the participant counts,
    null as zero, of the campus's events whose [dateTime] lies, in local
    time, between 1 January of the year and 1 January of the next; and it
    reports nothing exactly when the campus has no such event. *)
Theorem getMonthlyParticipation_total
    (LocalTZA : Z → Z) (monthLong : Js.Month → string)
    (campusId year : Z) (db : Database) :
  sql.in_int4 campusId = true →
  let selected := events_of_year LocalTZA campusId year db in
  ∃ result,
    getMonthlyParticipation LocalTZA monthLong campusId year db
    = (Returned result, db) ∧
    foldr Z.add 0 result.*2
    = foldr
        (λ e s,
           match events.participantCount e with
           | Some n => n
           | None => 0
           end + s)
        0 selected ∧
    (result = [] ↔ selected = []).
Proof.
  intros _ selected.
  unfold getMonthlyParticipation, sql.select, mbind, Query_bind.
  rewrite entries_map.
  assert (Hsel :
    filter (λ event : Z * option Z,
              getFullYear LocalTZA event.1 =? year)
      (map (λ e, (events.dateTime e, events.participantCount e))
         (sql.where_ (λ e, events.campusId e =? campusId) (tbl_events db)))
    = (λ e, (events.dateTime e, events.participantCount e)) <$> selected).
  { change (map ?f ?l) with (f <$> l). rewrite filter_fmap. f_equal.
    unfold sql.where_. rewrite list_filter_filter. apply list_filter_iff.
    intros e. simpl. unfold getFullYear, LocalTime.
    rewrite <- YearFromTime_in_year, !Is_true_true. lia. }
  rewrite Hsel. clear Hsel.
  eexists. split; [reflexivity|]. split.
  - rewrite (fold_tally_sum
               (λ event : Z * option Z,
                  toLocaleString_month LocalTZA monthLong event.1)
               (λ event : Z * option Z, Js.or_zero event.2)).
    simpl. by rewrite foldr_fmap.
  - rewrite (fold_tally_nil
               (λ event : Z * option Z,
                  toLocaleString_month LocalTZA monthLong event.1)
               (λ event : Z * option Z, Js.or_zero event.2)).
    split.
    + intros [Hnil _]. by apply fmap_nil_inv in Hnil.
    + by intros ->.
Qed.

(** ** Further properties of the writes *)

Lemma limit_1_head {R : Type} (rows : list R) :
  sql.limit 1 rows !! 0%nat = rows !! 0%nat.
Proof. by destruct rows. Qed.

Lemma where_where {R : Type} (p q : R → bool) (rows : list R) :
  (∀ r, q r = true → p r = true) →
  sql.where_ q (sql.where_ p rows) = sql.where_ q rows.
Proof.
  intros Hqp. unfold sql.where_. rewrite list_filter_filter.
  apply list_filter_iff. intros r. rewrite !Is_true_true.
  split; [by intros [? _]|]. intros Hq. split; [done|by apply Hqp].
Qed.

Lemma accepts_all_app_inv (ps qs : list sql.param) :
  sql.accepts_all (ps ++ qs) = Returned () →
  sql.accepts_all ps = Returned () ∧ sql.accepts_all qs = Returned ().
Proof.
  rewrite accepts_all_app.
  destruct (sql.accepts_all ps) as [[]|]; [|done].
  intros Hqs. split; [done|exact Hqs].
Qed.

Lemma accepts_all_Integer_inv (n : Z) :
  sql.accepts_all [sql.Integer n] = Returned () → sql.in_int4 n = true.
Proof.
  unfold sql.accepts_all. simpl. by destruct (sql.in_int4 n).
Qed.

Lemma events_row_inv (db : Database) (i : Z) (old : option Event)
    (v : EventCells) (e' : Event) :
  events_row db i old v = Returned e' →
  not_null "id" (c_id v) (Some i) = Returned (events.id e') ∧
  not_null "campusId" (c_campusId v) (events.campusId <$> old)
  = Returned (events.campusId e') ∧
  not_null "dateTime" (c_dateTime v) (events.dateTime <$> old)
  = Returned (events.dateTime e') ∧
  events.endDateTime e'
  = nullable (c_endDateTime v) (old ≫= events.endDateTime) ∧
  (events.id <$> old = Some (events.id e')
   ∨ has_event db (events.id e') = false) ∧
  (events.campusId <$> old = Some (events.campusId e')
   ∨ references_campus db (events.campusId e') = true).
Proof.
  unfold events_row, mbind, outcome_bind.
  destruct (not_null "id" _ _) as [k|]; [|done].
  destruct (not_null "campusId" _ _) as [c|]; [|done].
  destruct (not_null "programType" _ _) as [p|]; [|done].
  destruct (not_null "dateTime" _ _) as [d|]; [|done].
  destruct (negb _ && _) eqn:Hpk; [done|].
  destruct (bool_decide _ || _) eqn:Hfk; [|done].
  intros [= <-]. simpl. repeat split; try done.
  - apply andb_false_iff in Hpk as [Hsame|Hnew]; [left|by right].
    by apply negb_false_iff, bool_decide_eq_true in Hsame.
  - apply orb_true_iff in Hfk as [Hsame|Href]; [left|by right].
    by apply bool_decide_eq_true in Hsame.
Qed.

(** A payload without [id] gives a statement without one, and the row
    then has the key it was given. *)
Lemma events_cells_id (o : Js.object) (v : EventCells) :
  events_cells o = Returned v →
  column.integer "id" (Js.get o "id") = Returned (c_id v).
Proof.
  unfold events_cells, mbind, outcome_bind.
  destruct (column.integer "id" _); [|done].
  destruct (column.integer "campusId" _); [|done].
  destruct (column.text "programType" _); [|done].
  destruct (column.timestamp "dateTime" _); [|done].
  destruct (column.timestamp "endDateTime" _); [|done].
  destruct (column.integer "participantCount" _); [|done].
  destruct (column.integer "rating" _); [|done].
  by intros [= <-].
Qed.

Lemma events_cells_no_id (o : Js.object) (v : EventCells) :
  Js.get o "id" = Js.Undefined →
  events_cells o = Returned v → c_id v = Omitted.
Proof.
  intros Hid Hcells%events_cells_id. rewrite Hid in Hcells.
  by injection Hcells.
Qed.

Lemma events_row_id (db : Database) (i : Z) (old : option Event)
    (v : EventCells) (e' : Event) :
  c_id v = Omitted →
  events_row db i old v = Returned e' → events.id e' = i.
Proof.
  intros Hid (Hkey & _)%events_row_inv. rewrite Hid in Hkey.
  by injection Hkey.
Qed.

(** The key of a written row is one the store takes, when the statement's
    parameters and the key it falls back to are. *)
Lemma events_row_id_range (db : Database) (i : Z) (old : option Event)
    (v : EventCells) (e' : Event) :
  sql.accepts_all (events_params v) = Returned () →
  sql.in_int4 i = true →
  events_row db i old v = Returned e' → sql.in_int4 (events.id e') = true.
Proof.
  intros Hparams Hi (Hkey & _)%events_row_inv.
  unfold events_params in Hparams.
  apply accepts_all_app_inv in Hparams as [Hparams _].
  destruct (c_id v) as [| |k]; simpl in Hkey; simplify_eq; [done|].
  by apply accepts_all_Integer_inv.
Qed.

Section update_where_facts.
Context (p : Event → bool) (f : Event → outcome Event).

Lemma update_where_inv (rows tbl ret : list Event) :
  update_where p f rows = Returned (tbl, ret) →
  Forall2 (λ e e', if p e then f e = Returned e' else e' = e) rows tbl ∧
  Forall2 (λ e e', f e = Returned e') (filter p rows) ret.
Proof.
  revert tbl ret. induction rows as [|e rows IH]; intros tbl ret; simpl.
  - intros [= <- <-]. split; constructor.
  - rewrite filter_cons. unfold mbind, outcome_bind.
    destruct (p e) eqn:Hp; simpl.
    + destruct (f e) as [e'|] eqn:Hf; [|done].
      destruct (update_where p f rows) as [[tbl' ret']|]; [|done].
      intros [= <- <-]. destruct (IH _ _ eq_refl) as [Htbl Hret].
      split; constructor; try done. by rewrite Hp.
    + destruct (update_where p f rows) as [[tbl' ret']|]; [|done].
      intros [= <- <-]. destruct (IH _ _ eq_refl) as [Htbl Hret].
      split; [|done]. constructor; [by rewrite Hp|done].
Qed.

(** Rewritten rows still match, so the rows of the new table that match
    are the rewritten ones, in order. *)
Lemma update_where_matching (rows tbl ret : list Event) :
  (∀ e e', f e = Returned e' → p e' = p e) →
  update_where p f rows = Returned (tbl, ret) →
  sql.where_ p tbl = ret.
Proof.
  intros Hkeep. unfold sql.where_.
  revert tbl ret. induction rows as [|e rows IH]; intros tbl ret; simpl.
  - by intros [= <- <-].
  - unfold mbind, outcome_bind. destruct (p e) eqn:Hp; simpl.
    + destruct (f e) as [e'|] eqn:Hf; [|done].
      destruct (update_where p f rows) as [[tbl' ret']|]; [|done].
      intros [= <- <-]. rewrite filter_cons, (IH _ _ eq_refl).
      by rewrite (Hkeep _ _ Hf), Hp.
    + destruct (update_where p f rows) as [[tbl' ret']|]; [|done].
      intros [= <- <-]. rewrite filter_cons, (IH _ _ eq_refl).
      by rewrite Hp.
Qed.

(** A selection that no matching row belongs to, before or after its
    rewriting, reads the same from the new table. *)
Lemma update_where_other (q : Event → bool) (rows tbl ret : list Event) :
  (∀ e, p e = true → q e = false) →
  (∀ e e', p e = true → f e = Returned e' → q e' = false) →
  update_where p f rows = Returned (tbl, ret) →
  sql.where_ q tbl = sql.where_ q rows.
Proof.
  intros Hpq Hfq. unfold sql.where_.
  revert tbl ret. induction rows as [|e rows IH]; intros tbl ret; simpl.
  - by intros [= <- <-].
  - unfold mbind, outcome_bind. destruct (p e) eqn:Hp; simpl.
    + destruct (f e) as [e'|] eqn:Hf; [|done].
      destruct (update_where p f rows) as [[tbl' ret']|]; [|done].
      intros [= <- <-]. rewrite !filter_cons, (IH _ _ eq_refl).
      by rewrite (Hpq _ Hp), (Hfq _ _ Hp Hf).
    + destruct (update_where p f rows) as [[tbl' ret']|]; [|done].
      intros [= <- <-]. by rewrite !filter_cons, (IH _ _ eq_refl).
Qed.
End update_where_facts.

Lemma processedUpdates_cells_inv
    (parse : string → option Z) (updates : Js.object) (v : EventCells) :
  events_cells (processedUpdates parse updates) = Returned v →
  c_dateTime v
  = (if Js.ToBoolean (Js.get updates "dateTime")
     then from_option SqlVal Omitted
            (Js.new_Date parse (Js.get updates "dateTime"))
     else Omitted) ∧
  c_endDateTime v
  = (if Js.ToBoolean (Js.get updates "endDateTime")
     then from_option SqlVal Omitted
            (Js.new_Date parse (Js.get updates "endDateTime"))
     else Omitted) ∧
  (Js.ToBoolean (Js.get updates "dateTime") = true →
   is_Some (Js.new_Date parse (Js.get updates "dateTime"))) ∧
  (Js.ToBoolean (Js.get updates "endDateTime") = true →
   is_Some (Js.new_Date parse (Js.get updates "endDateTime"))).
Proof.
  unfold events_cells, mbind, outcome_bind.
  rewrite processedUpdates_dateTime, processedUpdates_endDateTime.
  destruct (column.integer "id" _); [|done].
  destruct (column.integer "campusId" _); [|done].
  destruct (column.text "programType" _); [|done].
  unfold Date_.
  assert (Hts : ∀ name d c,
    column.timestamp name
      (if Js.ToBoolean d then Js.DateObj (Js.new_Date parse d)
       else Js.Undefined) = Returned c →
    c = (if Js.ToBoolean d
         then from_option SqlVal Omitted (Js.new_Date parse d)
         else Omitted) ∧
    (Js.ToBoolean d = true → is_Some (Js.new_Date parse d))).
  { intros name d c. destruct (Js.ToBoolean d); simpl.
    - destruct (Js.new_Date parse d) as [t|]; [|done].
      intros [= <-]. split; [done|]. by eexists.
    - by intros [= <-]. }
  destruct (column.timestamp "dateTime" _) as [c_d|] eqn:Hd; [|done].
  destruct (column.timestamp "endDateTime" _) as [c_e|] eqn:He; [|done].
  destruct (column.integer "participantCount" _); [|done].
  destruct (column.integer "rating" _); [|done].
  intros [= <-]. simpl.
  apply Hts in Hd as [-> ?]. apply Hts in He as [-> ?]. done.
Qed.

(** What [updateEvent] does when it returns: the statement's cells, which
    the store took together with the id, the new table, and the rewritten
    rows, which are the answer's source. *)
Lemma updateEvent_inv
    (parse : string → option Z) (id : Z) (updates : Js.object)
    (db db' : Database) (result : option Event) :
  updateEvent parse id updates db = (Returned result, db') →
  ∃ v tbl ret,
    events_cells (processedUpdates parse updates) = Returned v ∧
    sql.accepts_all (events_params v) = Returned () ∧
    sql.in_int4 id = true ∧
    update_where (λ e, events.id e =? id)
      (λ e, events_row db (events.id e) (Some e) v) (tbl_events db)
    = Returned (tbl, ret) ∧
    db' = with_events db tbl (seq_events db) ∧
    result = ret !! 0%nat.
Proof.
  unfold updateEvent, update_events, mbind, Query_bind.
  destruct (sets_nothing _); [done|].
  destruct (events_cells _) as [v|]; [|done].
  destruct (sets_no_column v); [done|].
  destruct (sql.accepts_all _) as [[]|] eqn:Hparams; [|done].
  apply accepts_all_app_inv in Hparams as [Hparams Hid].
  apply accepts_all_Integer_inv in Hid.
  destruct (update_where _ _ _) as [[tbl ret]|] eqn:Hrun; [|done].
  intros [= <- <-]. by exists v, tbl, ret.
Qed.

(** When [updateEvent] throws, the store is as it was. *)
Lemma updateEvent_thrown
    (parse : string → option Z) (id : Z) (updates : Js.object)
    (db db' : Database) (e : error) :
  updateEvent parse id updates db = (Thrown e, db') → db' = db.
Proof.
  unfold updateEvent, update_events, mbind, Query_bind.
  destruct (sets_nothing _); [by intros [= _ <-]|].
  destruct (events_cells _) as [v|]; [|by intros [= _ <-]].
  destruct (sets_no_column v); [by intros [= _ <-]|].
  destruct (sql.accepts_all _) as [[]|]; [|by intros [= _ <-]].
  destruct (update_where _ _ _) as [[tbl ret]|]; [done|].
  by intros [= _ <-].
Qed.

Lemma updateEvent_Returned_or_Thrown
    (parse : string → option Z) (id : Z) (updates : Js.object)
    (db : Database) :
  (∃ result db', updateEvent parse id updates db = (Returned result, db'))
  ∨ (∃ e, updateEvent parse id updates db = (Thrown e, db)).
Proof.
  destruct (updateEvent parse id updates db) as [[result|e] db'] eqn:Hrun.
  - left. by exists result, db'.
  - right. exists e. by rewrite (updateEvent_thrown _ _ _ _ _ _ Hrun).
Qed.

Lemma getEvent_first (id : Z) (db : Database) :
  sql.in_int4 id = true →
  getEvent id db
  = (Returned (sql.where_ (λ e, events.id e =? id) (tbl_events db) !! 0%nat),
     db).
Proof.
  intros Hid. rewrite getEvent_accepted by done. by rewrite limit_1_head.
Qed.

(** What [getEvent] answers depends on the rows carrying the id only. *)
Lemma getEvent_same (id : Z) (db db' : Database) :
  sql.where_ (λ e, events.id e =? id) (tbl_events db')
  = sql.where_ (λ e, events.id e =? id) (tbl_events db) →
  (getEvent id db').1 = (getEvent id db).1.
Proof.
  intros Hsame. destruct (sql.in_int4 id) eqn:Hid.
  - rewrite !getEvent_first by done. simpl. by rewrite Hsame.
  - by rewrite !getEvent_rejected.
Qed.

(** X7.  When the payload has no [id], what [updateEvent] returns is what
    [getEvent] then finds under the same id: the updated record, or the
    absent marker. *)
Theorem updateEvent_then_getEvent
    (parse : string → option Z) (id : Z) (updates : Js.object)
    (db db' : Database) (result : option Event) :
  Js.get updates "id" = Js.Undefined →
  updateEvent parse id updates db = (Returned result, db') →
  getEvent id db' = (Returned result, db').
Proof.
  intros Hnoid (v & tbl & ret & Hcells & _ & Hid & Hrun & -> & ->)%updateEvent_inv.
  rewrite getEvent_first by done.
  change (tbl_events (with_events db tbl (seq_events db))) with tbl.
  apply update_where_matching in Hrun as ->; [done|].
  intros e e' He'%events_row_id; [by rewrite He'|].
  eapply events_cells_no_id; [|exact Hcells].
  by rewrite processedUpdates_other.
Qed.

(** X8.  Whatever the payload, when [updateEvent] returns it has not
    cleared a date: a row that had an [endDateTime] still has one, and a
    date whose property is falsy, null included, keeps the value the row
    had. *)
Theorem updateEvent_never_clears_dates
    (parse : string → option Z) (id : Z) (updates : Js.object)
    (db db' : Database) (result : option Event) :
  updateEvent parse id updates db = (Returned result, db') →
  Forall2
    (λ e e',
       (is_Some (events.endDateTime e) → is_Some (events.endDateTime e')) ∧
       (Js.ToBoolean (Js.get updates "endDateTime") = false →
        events.endDateTime e' = events.endDateTime e) ∧
       (Js.ToBoolean (Js.get updates "dateTime") = false →
        events.dateTime e' = events.dateTime e))
    (tbl_events db) (tbl_events db').
Proof.
  intros (v & tbl & ret & Hcells & _ & _ & Hrun & -> & _)%updateEvent_inv.
  apply processedUpdates_cells_inv in Hcells as (Hd & He & _ & Hend).
  apply update_where_inv in Hrun as [Htbl _]. simpl.
  eapply Forall2_impl; [exact Htbl|]. intros e e' Hrow. simpl in Hrow.
  destruct (events.id e =? id); [|by subst].
  apply events_row_inv in Hrow as (_ & _ & Hdate & Hrow & _).
  simpl in Hrow, Hdate. rewrite Hrow, He. rewrite Hd in Hdate.
  split; [|split].
  - destruct (Js.ToBoolean (Js.get updates "endDateTime")); [|done].
    destruct (Hend eq_refl) as [t ->]. by eexists.
  - by intros ->.
  - intros Hfalsy. rewrite Hfalsy in Hdate. simpl in Hdate. congruence.
Qed.

Lemma updateEvent_frame
    (parse : string → option Z) (id : Z) (updates : Js.object)
    (db : Database) :
  let db' := (updateEvent parse id updates db).2 in
  length (tbl_events db') = length (tbl_events db) ∧
  (Js.get updates "id" = Js.Undefined →
   events.id <$> tbl_events db' = events.id <$> tbl_events db) ∧
  tbl_users db' = tbl_users db ∧
  tbl_campuses db' = tbl_campuses db ∧
  tbl_chatSessions db' = tbl_chatSessions db ∧
  seq_campuses db' = seq_campuses db ∧
  seq_events db' = seq_events db ∧
  (∀ e, (updateEvent parse id updates db).1 = Thrown e → db' = db).
Proof.
  destruct (updateEvent_Returned_or_Thrown parse id updates db)
    as [(result & db' & Hrun)|(e & Hrun)]; rewrite Hrun; simpl; [|done].
  apply updateEvent_inv
    in Hrun as (v & tbl & ret & Hcells & _ & _ & Hrun & -> & _).
  apply update_where_inv in Hrun as [Htbl _]. simpl.
  split; [symmetry; by eapply Forall2_length|].
  split; [|done].
  intros Hnoid.
  assert (Hid : c_id v = Omitted).
  { eapply events_cells_no_id; [|exact Hcells].
    by rewrite processedUpdates_other. }
  induction Htbl as [|e e' rows tbl' He _ IH]; [done|].
  rewrite !fmap_cons, IH. f_equal.
  destruct (events.id e =? id); [|by subst].
  by apply events_row_id in He.
Qed.

(** X9.  [updateEvent] never adds or removes rows, and leaves the other
    tables and both sequences as they were; when the payload has no [id]
    the events table keeps its ids in place; and when the call throws the
    whole store is as it was. *)
Theorem updateEvent_keeps_rows_in_place
    (parse : string → option Z) (id : Z) (updates : Js.object)
    (db : Database) :
  let db' := (updateEvent parse id updates db).2 in
  length (tbl_events db') = length (tbl_events db) ∧
  (Js.get updates "id" = Js.Undefined →
   events.id <$> tbl_events db' = events.id <$> tbl_events db) ∧
  tbl_users db' = tbl_users db ∧
  tbl_campuses db' = tbl_campuses db ∧
  tbl_chatSessions db' = tbl_chatSessions db ∧
  seq_campuses db' = seq_campuses db ∧
  seq_events db' = seq_events db ∧
  (∀ e, (updateEvent parse id updates db).1 = Thrown e → db' = db).
Proof. apply updateEvent_frame. Qed.

(** X10.  An update with nothing to set, once its falsy dates are
    dropped, is refused before it reaches the store: a payload in which
    every property but the dates is undefined or missing and each date is
    falsy, the empty payload and one holding only a null [endDateTime]
    among them, throws and changes nothing. *)
Theorem updateEvent_without_columns_throws
    (parse : string → option Z) (id : Z) (updates : Js.object)
    (db : Database) :
  (∀ k, k ≠ "dateTime"%string → k ≠ "endDateTime"%string →
        Js.get updates k = Js.Undefined) →
  Js.ToBoolean (Js.get updates "dateTime") = false →
  Js.ToBoolean (Js.get updates "endDateTime") = false →
  updateEvent parse id updates db = (Thrown NoValuesToSet, db).
Proof.
  intros Hrest Hd He.
  unfold updateEvent, update_events, mbind, Query_bind.
  assert (Hnothing : sets_nothing (processedUpdates parse updates) = true).
  { unfold sets_nothing. apply forallb_forall.
    intros [k v] Hin%list_elem_of_In%elem_of_map_to_list. simpl.
    assert (Hget : Js.get (processedUpdates parse updates) k = v)
      by (unfold Js.get; by rewrite Hin).
    rewrite <- Hget.
    destruct (decide (k = "dateTime"%string)) as [->|Hkd].
    { by rewrite processedUpdates_dateTime, Hd. }
    destruct (decide (k = "endDateTime"%string)) as [->|Hke].
    { by rewrite processedUpdates_endDateTime, He. }
    by rewrite processedUpdates_other, Hrest. }
  by rewrite Hnothing.
Qed.

(** What [createEvent] does when it returns: the statement's cells, which
    the store took, and the row it appended, whose key the store takes and
    no row had. *)
Lemma createEvent_inv
    (parse : string → option Z) (eventData : Js.object)
    (db db' : Database) (result : option Event) :
  createEvent parse eventData db = (Returned result, db') →
  ∃ v created,
    events_cells (processedData parse eventData) = Returned v ∧
    events_row db (seq_events db) None v = Returned created ∧
    sql.in_int4 (events.id created) = true ∧
    has_event db (events.id created) = false ∧
    result = Some created ∧
    db'
    = with_events db (tbl_events db ++ [created])
        (if is_omitted (c_id v) then seq_events db + 1 else seq_events db).
Proof.
  unfold createEvent, insert_events, mbind, Query_bind.
  destruct (events_cells _) as [v|]; [|done].
  destruct (sql.accepts_all _) as [[]|] eqn:Hparams; [|done].
  destruct (events_row _ _ _ _) as [row|] eqn:Hrow; [|done].
  intros [= <- <-]. exists v, row.
  split; [done|]. split; [done|]. split; [|split; [|done]].
  - pose proof Hrow as (Hkey & _)%events_row_inv.
    apply accepts_all_app_inv in Hparams as [Hparams Hgen].
    unfold events_params in Hparams.
    apply accepts_all_app_inv in Hparams as [Hparams _].
    destruct (c_id v) as [| |k]; simpl in Hkey; [|done|];
      injection Hkey as <-.
    + by apply accepts_all_Integer_inv in Hgen.
    + by apply accepts_all_Integer_inv in Hparams.
  - by apply events_row_inv in Hrow as (_ & _ & _ & _ & [?|?] & _).
Qed.

(** When [createEvent] throws, the tables are as they were. *)
Lemma createEvent_thrown
    (parse : string → option Z) (eventData : Js.object)
    (db db' : Database) (e : error) :
  createEvent parse eventData db = (Thrown e, db') →
  same_tables db db' ∧ seq_campuses db' = seq_campuses db
  ∧ seq_events db ≤ seq_events db' ≤ seq_events db + 1.
Proof.
  unfold createEvent, insert_events, mbind, Query_bind.
  destruct (events_cells _) as [v|]; [|intros [= _ <-]; repeat split; lia].
  destruct (sql.accepts_all _) as [[]|];
    [|intros [= _ <-]; repeat split; lia].
  destruct (events_row _ _ _ _) as [row|]; [done|].
  intros [= _ <-]. repeat split; simpl; destruct (is_omitted _); lia.
Qed.

Lemma createEvent_Returned_or_Thrown
    (parse : string → option Z) (eventData : Js.object) (db : Database) :
  (∃ result db', createEvent parse eventData db = (Returned result, db'))
  ∨ (∃ e db', createEvent parse eventData db = (Thrown e, db')).
Proof.
  destruct (createEvent parse eventData db) as [[result|e] db'].
  - left. by exists result, db'.
  - right. by exists e, db'.
Qed.

(** X11.  [createCampus] and [createEvent] never return the absent
    marker.  For a payload without [id], either they return the created
    record, which carries the next id of its sequence and is appended to
    its table while the other tables stay as they were; or they throw and
    all four tables are as they were. *)
Theorem inserts_return_or_throw
    (parse : string → option Z) (data : Js.object) (db : Database) :
  Js.get data "id" = Js.Undefined →
  ((∃ created db',
      createCampus data db = (Returned (Some created), db') ∧
      campuses.id created = seq_campuses db ∧
      tbl_campuses db' = tbl_campuses db ++ [created] ∧
      tbl_users db' = tbl_users db ∧
      tbl_events db' = tbl_events db ∧
      tbl_chatSessions db' = tbl_chatSessions db)
   ∨ (∃ e db', createCampus data db = (Thrown e, db') ∧ same_tables db db')) ∧
  ((∃ created db',
      createEvent parse data db = (Returned (Some created), db') ∧
      events.id created = seq_events db ∧
      tbl_events db' = tbl_events db ++ [created] ∧
      tbl_users db' = tbl_users db ∧
      tbl_campuses db' = tbl_campuses db ∧
      tbl_chatSessions db' = tbl_chatSessions db)
   ∨ (∃ e db',
        createEvent parse data db = (Thrown e, db') ∧ same_tables db db')).
Proof.
  intros Hnoid. split.
  - unfold createCampus, insert_campuses, mbind, Query_bind.
    destruct (column.text "name" _) as [n|e]; [|right; by eexists _, _].
    destruct (not_null "name" n None) as [n'|e];
      [left|right]; by eexists _, _.
  - destruct (createEvent_Returned_or_Thrown parse data db)
      as [(result & db' & Hrun)|(e & db' & Hrun)].
    + left. pose proof Hrun as Hinv.
      apply createEvent_inv
        in Hinv as (v & created & Hcells & Hrow & _ & _ & -> & ->).
      exists created. eexists. split; [exact Hrun|].
      split; [|done].
      eapply events_row_id; [|exact Hrow].
      eapply events_cells_no_id; [|exact Hcells].
      by rewrite processedData_other.
    + right. exists e, db'. split; [done|].
      by apply createEvent_thrown in Hrun as [? _].
Qed.

(** X12.  [createEvent] throws, before anything reaches the store, when
    [dateTime] is not a valid date, a missing [dateTime] included, or when
    [endDateTime] is truthy and not a valid date. *)
Theorem createEvent_invalid_date_throws
    (parse : string → option Z) (eventData : Js.object) (db : Database) :
  Js.new_Date parse (Js.get eventData "dateTime") = None
  ∨ (Js.ToBoolean (Js.get eventData "endDateTime") = true
     ∧ Js.new_Date parse (Js.get eventData "endDateTime") = None) →
  ∃ e, createEvent parse eventData db = (Thrown e, db).
Proof.
  intros Hbad.
  unfold createEvent, insert_events, mbind, Query_bind, events_cells.
  rewrite processedData_dateTime, processedData_endDateTime.
  unfold mbind, outcome_bind, Date_.
  destruct (column.integer "id" _); [|by eexists].
  destruct (column.integer "campusId" _); [|by eexists].
  destruct (column.text "programType" _); [|by eexists].
  destruct (Js.new_Date parse (Js.get eventData "dateTime")) as [t|];
    simpl; [|by eexists].
  destruct Hbad as [?|[-> ->]]; [done|]. simpl. by eexists.
Qed.

(** X13.  [updateEvent] throws, and changes nothing, when a date of the
    payload is truthy and not a valid date. *)
Theorem updateEvent_invalid_date_throws
    (parse : string → option Z) (id : Z) (updates : Js.object)
    (db : Database) :
  (Js.ToBoolean (Js.get updates "dateTime") = true
   ∧ Js.new_Date parse (Js.get updates "dateTime") = None)
  ∨ (Js.ToBoolean (Js.get updates "endDateTime") = true
     ∧ Js.new_Date parse (Js.get updates "endDateTime") = None) →
  ∃ e, updateEvent parse id updates db = (Thrown e, db).
Proof.
  intros Hbad.
  destruct (updateEvent_Returned_or_Thrown parse id updates db)
    as [(result & db' & Hrun)|(e & Hrun)]; [|by exists e].
  apply updateEvent_inv in Hrun as (v & _ & _ & Hcells & _).
  apply processedUpdates_cells_inv in Hcells as (_ & _ & Hd & He).
  destruct Hbad as [[Ht Hnone]|[Ht Hnone]].
  - destruct (Hd Ht) as [t ?]. congruence.
  - destruct (He Ht) as [t ?]. congruence.
Qed.

(** *** Lookups after writes *)

Lemma getCampus_first (id : Z) (db : Database) :
  getCampus id db
  = (Returned
       (sql.where_ (λ c, campuses.id c =? id) (tbl_campuses db) !! 0%nat),
     db).
Proof.
  unfold getCampus, sql.select, mbind, Query_bind. by rewrite limit_1_head.
Qed.

Lemma where_none {R : Type} (p : R → bool) (rows : list R) :
  Forall (λ r, p r = false) rows → sql.where_ p rows = [].
Proof.
  unfold sql.where_. induction 1 as [|r rows Hr _ IH]; [done|].
  by rewrite filter_cons, IH, Hr.
Qed.

Lemma where_app {R : Type} (p : R → bool) (rows rows' : list R) :
  sql.where_ p (rows ++ rows') = sql.where_ p rows ++ sql.where_ p rows'.
Proof. apply filter_app. Qed.

(** X14.  After [deleteEvent] of an id within 32 bits, [getEvent]
    returns the absent marker for the deleted id, and for every other id
    what it did before. *)
Theorem deleteEvent_then_getEvent (id : Z) (db : Database) :
  sql.in_int4 id = true →
  (getEvent id (deleteEvent id db).2).1 = Returned None ∧
  ∀ id', id' ≠ id →
    (getEvent id' (deleteEvent id db).2).1 = (getEvent id' db).1.
Proof.
  intros Hid. rewrite deleteEvent_accepted by done.
  split; [|intros id' Hne].
  - rewrite getEvent_first by done. simpl.
    rewrite where_none; [done|].
    apply Forall_forall. intros e [He _]%list_elem_of_filter.
    apply Is_true_true, negb_true_iff in He. done.
  - apply getEvent_same. simpl.
    unfold sql.where_. rewrite list_filter_filter.
    apply list_filter_iff. intros e. rewrite !Is_true_true, negb_true_iff.
    split; [by intros [? _]|]. intros He. split; [done|]. lia.
Qed.

(** X15.  [updateEvent] on one id, and [createEvent], with a payload
    that has no [id], leave what [getEvent] does for every other id as it
    was, whether they return or throw. *)
Theorem event_writes_keep_other_lookups
    (parse : string → option Z) (db : Database) :
  (∀ id id' updates, id' ≠ id → Js.get updates "id" = Js.Undefined →
     (getEvent id' (updateEvent parse id updates db).2).1
     = (getEvent id' db).1) ∧
  (∀ id' eventData, id' ≠ seq_events db →
     Js.get eventData "id" = Js.Undefined →
     (getEvent id' (createEvent parse eventData db).2).1
     = (getEvent id' db).1).
Proof.
  split.
  - intros id id' updates Hne Hnoid. apply getEvent_same.
    destruct (updateEvent_Returned_or_Thrown parse id updates db)
      as [(result & db' & Hrun)|(e & Hrun)]; rewrite Hrun; simpl; [|done].
    apply updateEvent_inv
      in Hrun as (v & tbl & ret & Hcells & _ & _ & Hrun & -> & _).
    assert (Hid : c_id v = Omitted).
    { eapply events_cells_no_id; [|exact Hcells].
      by rewrite processedUpdates_other. }
    simpl.
    apply (update_where_other _ _ (λ e, events.id e =? id')) in Hrun;
      [done| |].
    + intros e. lia.
    + intros e e' He He'%events_row_id; [|done]. simpl. lia.
  - intros id' eventData Hne Hnoid. apply getEvent_same.
    destruct (createEvent_Returned_or_Thrown parse eventData db)
      as [(result & db' & Hrun)|(e & db' & Hrun)]; rewrite Hrun; simpl.
    + apply createEvent_inv
        in Hrun as (v & created & Hcells & Hrow & _ & _ & _ & ->).
      simpl. rewrite where_app.
      apply events_row_id in Hrow.
      * rewrite (where_none _ [created]); [by rewrite app_nil_r|].
        constructor; [|done]. simpl. lia.
      * eapply events_cells_no_id; [|exact Hcells].
        by rewrite processedData_other.
    + apply createEvent_thrown in Hrun as [(_ & _ & -> & _) _]. done.
Qed.

(** *** Ids the store does not take, and ids brought by the payload *)

(** X22.  An id beyond 32 bits is refused by the store: [getUser],
    [getEvent] and [deleteEvent] throw on it, [updateEvent] throws whatever
    the payload, and the store is as it was. *)
Theorem wide_id_throws
    (parse : string → option Z) (id : Z) (db : Database) :
  sql.in_int4 id = false →
  getUser id db = (Thrown (OutOfRange "integer"), db) ∧
  getEvent id db = (Thrown (OutOfRange "integer"), db) ∧
  deleteEvent id db = (Thrown (OutOfRange "integer"), db) ∧
  ∀ updates, ∃ e, updateEvent parse id updates db = (Thrown e, db).
Proof.
  intros Hid. split; [|split; [|split]].
  - unfold getUser, mbind, Query_bind, sql.bind. simpl. by rewrite Hid.
  - by apply getEvent_rejected.
  - by apply deleteEvent_rejected.
  - intros updates.
    destruct (updateEvent_Returned_or_Thrown parse id updates db)
      as [(result & db' & Hrun)|(e & Hrun)]; [|by exists e].
    apply updateEvent_inv in Hrun as (_ & _ & _ & _ & _ & Hid' & _).
    congruence.
Qed.

(** X23.  The payload of [createEvent] spreads into the statement, so
    an [id] it carries is the key of the created record: the record is
    stored under that id, which no row had, and the sequence stays where
    it was. *)
Theorem createEvent_payload_id_is_stored
    (parse : string → option Z) (eventData : Js.object) (k : Z)
    (db db' : Database) (result : option Event) :
  Js.get eventData "id" = Js.Num k →
  createEvent parse eventData db = (Returned result, db') →
  ∃ created,
    result = Some created ∧
    events.id created = k ∧
    (∀ e, e ∈ tbl_events db → events.id e ≠ k) ∧
    tbl_events db' = tbl_events db ++ [created] ∧
    seq_events db' = seq_events db.
Proof.
  intros Hk Hrun.
  apply createEvent_inv
    in Hrun as (v & created & Hcells & Hrow & _ & Hnew & -> & ->).
  apply events_cells_id in Hcells.
  rewrite processedData_other, Hk in Hcells by done. simpl in Hcells.
  injection Hcells as Hcell.
  pose proof Hrow as (Hkey & _)%events_row_inv.
  rewrite <- Hcell in Hkey. simpl in Hkey. injection Hkey as Hkey.
  exists created. split; [done|]. split; [done|]. split.
  - intros e He Heq. unfold has_event in Hnew.
    apply not_true_iff_false in Hnew. destruct Hnew.
    apply existsb_exists. exists e.
    split; [by apply list_elem_of_In|]. lia.
  - simpl. by rewrite <- Hcell.
Qed.

(** *** Keys *)

Lemma Forall_below_succ {R : Type} (key : R → Z) (rows : list R) (next : Z) :
  Forall (λ r, key r < next) rows → Forall (λ r, key r < next + 1) rows.
Proof.
  intros Hall. eapply Forall_impl; [exact Hall|]. intros r. simpl. lia.
Qed.

Lemma Forall_where {R : Type} (P : R → Prop) (q : R → Prop)
    `{!∀ r, Decision (q r)} (rows : list R) :
  Forall P rows → Forall P (filter q rows).
Proof.
  rewrite !Forall_forall. intros Hall r [_ Hr]%list_elem_of_filter. auto.
Qed.

Lemma NoDup_keys_where {R : Type} (key : R → Z) (q : R → Prop)
    `{!∀ r, Decision (q r)} (rows : list R) :
  NoDup (key <$> rows) → NoDup (key <$> filter q rows).
Proof.
  induction rows as [|r rows IH]; [done|].
  rewrite fmap_cons, filter_cons. intros [Hr Hnd]%NoDup_cons.
  destruct (decide (q r)); [|by apply IH].
  rewrite fmap_cons. apply NoDup_cons. split; [|by apply IH].
  intros (r' & Hkey & [_ Hin]%list_elem_of_filter)%list_elem_of_fmap.
  apply Hr, list_elem_of_fmap. by exists r'.
Qed.

Lemma NoDup_snoc_next {R : Type} (key : R → Z) (rows : list R) (row : R)
    (next : Z) :
  NoDup (key <$> rows) → Forall (λ r, key r < next) rows → key row = next →
  NoDup (key <$> rows ++ [row]) ∧
  Forall (λ r, key r < next + 1) (rows ++ [row]).
Proof.
  intros Hnd Hlt Hkey. split.
  - rewrite fmap_app. apply NoDup_app. split; [done|]. split.
    + intros i Hi [->|[]%elem_of_nil]%elem_of_cons.
      apply list_elem_of_fmap in Hi as (r & Hr & Hin).
      rewrite Forall_forall in Hlt. specialize (Hlt r Hin). lia.
    + apply NoDup_singleton.
  - apply Forall_app. split; [by apply Forall_below_succ|].
    constructor; [lia|done].
Qed.

Lemma Forall_same_keys {R : Type} (key : R → Z) (P : Z → Prop)
    (rows rows' : list R) :
  key <$> rows' = key <$> rows →
  Forall (λ r, P (key r)) rows → Forall (λ r, P (key r)) rows'.
Proof.
  intros Hkeys Hall.
  apply (Forall_fmap key P). rewrite Hkeys. by apply Forall_fmap.
Qed.

Lemma update_campuses_where_rename (p : Campus → bool) (s : string)
    (rows : list Campus) :
  update_campuses_where p (SqlVal s) rows
  = Returned
      ((λ c, if p c then campuses.mk (campuses.id c) s else c) <$> rows,
       (λ c, campuses.mk (campuses.id c) s) <$> filter p rows).
Proof.
  induction rows as [|c rows IH]; [done|].
  simpl. rewrite IH, filter_cons. unfold mbind, outcome_bind.
  by destruct (p c).
Qed.

Lemma update_campuses_where_ids (p : Campus → bool) (c : cell string)
    (rows tbl ret : list Campus) :
  update_campuses_where p c rows = Returned (tbl, ret) →
  campuses.id <$> tbl = campuses.id <$> rows.
Proof.
  revert tbl ret. induction rows as [|k rows IH]; intros tbl ret; simpl.
  - by intros [= <- <-].
  - unfold mbind, outcome_bind. destruct (p k).
    + destruct (not_null "name" c _); [|done].
      destruct (update_campuses_where p c rows) as [[tbl' ret']|]; [|done].
      intros [= <- <-]. by rewrite !fmap_cons, (IH _ _ eq_refl).
    + destruct (update_campuses_where p c rows) as [[tbl' ret']|]; [|done].
      intros [= <- <-]. by rewrite !fmap_cons, (IH _ _ eq_refl).
Qed.

(** X16.  Every write keeps keys fresh, when its payload has no [id]:
    in a store whose campus and event ids are unique and below the next
    value of their sequence, they still are after [createCampus],
    [updateCampus], [createEvent], [updateEvent] or [deleteEvent], whether
    the call returns or throws. *)
Theorem writes_keep_ids_fresh (parse : string → option Z) (db : Database) :
  fresh_ids db →
  (∀ campusData, Js.get campusData "id" = Js.Undefined →
     fresh_ids (createCampus campusData db).2) ∧
  (∀ id updates, Js.get updates "id" = Js.Undefined →
     fresh_ids (updateCampus id updates db).2) ∧
  (∀ eventData, Js.get eventData "id" = Js.Undefined →
     fresh_ids (createEvent parse eventData db).2) ∧
  (∀ id updates, Js.get updates "id" = Js.Undefined →
     fresh_ids (updateEvent parse id updates db).2) ∧
  (∀ id, fresh_ids (deleteEvent id db).2).
Proof.
  intros (Hc_nd & Hc_lt & He_nd & He_lt).
  split; [|split; [|split; [|split]]].
  - intros campusData _.
    unfold createCampus, insert_campuses, mbind, Query_bind.
    destruct (column.text "name" _) as [n|]; [|done].
    destruct (not_null "name" n None) as [n'|].
    + destruct (NoDup_snoc_next campuses.id (tbl_campuses db)
                  (campuses.mk (seq_campuses db) n') (seq_campuses db))
        as [? ?]; done.
    + split; [done|]. split; [|done].
      by apply (Forall_below_succ campuses.id).
  - intros id updates _.
    unfold updateCampus, update_campuses, mbind, Query_bind.
    destruct (Js.is_undefined _); [done|].
    destruct (column.text "name" _) as [c|]; [|done].
    destruct (update_campuses_where _ _ _) as [[tbl ret]|] eqn:Hrun; [|done].
    apply update_campuses_where_ids in Hrun. unfold fresh_ids. simpl.
    rewrite Hrun. split; [done|]. split; [|done].
    by apply (Forall_same_keys campuses.id (λ i, i < seq_campuses db)
                (tbl_campuses db)).
  - intros eventData Hnoid.
    destruct (createEvent_Returned_or_Thrown parse eventData db)
      as [(result & db' & Hrun)|(e & db' & Hrun)]; rewrite Hrun; simpl.
    + apply createEvent_inv
        in Hrun as (v & created & Hcells & Hrow & _ & _ & _ & ->).
      assert (Hid : c_id v = Omitted).
      { eapply events_cells_no_id; [|exact Hcells].
        by rewrite processedData_other. }
      apply events_row_id in Hrow; [|done]. rewrite Hid. simpl.
      destruct (NoDup_snoc_next events.id (tbl_events db) created
                  (seq_events db)) as [? ?]; done.
    + apply createEvent_thrown
        in Hrun as [(_ & Hc & He & _) [Hsc Hse]].
      unfold fresh_ids. rewrite Hc, He, Hsc.
      split; [done|]. split; [done|]. split; [done|].
      eapply Forall_impl; [exact He_lt|]. intros r. simpl. lia.
  - intros id updates Hnoid.
    pose proof (updateEvent_frame parse id updates db)
      as (_ & Hids & _ & Hc & _ & Hsc & Hse & _).
    specialize (Hids Hnoid).
    unfold fresh_ids. rewrite Hc, Hsc, Hse, Hids.
    split; [done|]. split; [done|]. split; [done|].
    by apply (Forall_same_keys events.id (λ i, i < seq_events db)
                (tbl_events db)).
  - intros id. destruct (sql.in_int4 id) eqn:Hid.
    + rewrite deleteEvent_accepted by done. simpl.
      split; [done|]. split; [done|]. split.
      * by apply NoDup_keys_where.
      * by apply Forall_where.
    + by rewrite deleteEvent_rejected.
Qed.

(** *** Campuses of events *)

Lemma references_campus_keys (db db' : Database) (c : Z) :
  campuses.id <$> tbl_campuses db' = campuses.id <$> tbl_campuses db →
  references_campus db' c = references_campus db c.
Proof.
  unfold references_campus.
  assert (Hkeys : ∀ rows : list Campus,
    existsb (λ k, campuses.id k =? c) rows
    = existsb (λ i, i =? c) (campuses.id <$> rows)).
  { induction rows as [|k rows IH]; [done|]. simpl. by rewrite IH. }
  intros Heq. by rewrite !Hkeys, Heq.
Qed.

Lemma references_campus_more (db db' : Database) (more : list Campus)
    (c : Z) :
  tbl_campuses db' = tbl_campuses db ++ more →
  references_campus db c = true → references_campus db' c = true.
Proof.
  unfold references_campus. intros ->. rewrite existsb_app.
  intros ->. done.
Qed.

(** X17.  No write leaves an event without its campus: in a store where
    every event belongs to a campus of the store, that still holds after
    [createCampus], [updateCampus], [createEvent], [updateEvent] or
    [deleteEvent], whether the call returns or throws. *)
Theorem writes_keep_references (parse : string → option Z) (db : Database) :
  references_ok db →
  (∀ campusData, references_ok (createCampus campusData db).2) ∧
  (∀ id updates, references_ok (updateCampus id updates db).2) ∧
  (∀ eventData, references_ok (createEvent parse eventData db).2) ∧
  (∀ id updates, references_ok (updateEvent parse id updates db).2) ∧
  (∀ id, references_ok (deleteEvent id db).2).
Proof.
  unfold references_ok. intros Hok.
  split; [|split; [|split; [|split]]].
  - intros campusData.
    unfold createCampus, insert_campuses, mbind, Query_bind.
    destruct (column.text "name" _) as [n|]; [|done].
    destruct (not_null "name" n None) as [n'|]; [|done].
    simpl. eapply Forall_impl; [exact Hok|]. intros e. simpl.
    by apply (references_campus_more db _
                [campuses.mk (seq_campuses db) n']).
  - intros id updates.
    unfold updateCampus, update_campuses, mbind, Query_bind.
    destruct (Js.is_undefined _); [done|].
    destruct (column.text "name" _) as [c|]; [|done].
    destruct (update_campuses_where _ _ _) as [[tbl ret]|] eqn:Hrun; [|done].
    apply update_campuses_where_ids in Hrun. simpl.
    eapply Forall_impl; [exact Hok|]. intros e. simpl.
    by rewrite (references_campus_keys db
                  (with_campuses db tbl (seq_campuses db))).
  - intros eventData.
    destruct (createEvent_Returned_or_Thrown parse eventData db)
      as [(result & db' & Hrun)|(e & db' & Hrun)]; rewrite Hrun; simpl.
    + apply createEvent_inv
        in Hrun as (v & created & _ & Hrow & _ & _ & _ & ->).
      simpl. apply Forall_app. split; [done|]. constructor; [|done].
      by apply events_row_inv in Hrow as (_ & _ & _ & _ & _ & [?|?]).
    + apply createEvent_thrown in Hrun as [(_ & Hc & He & _) _].
      rewrite He. eapply Forall_impl; [exact Hok|]. intros r. simpl.
      unfold references_campus. by rewrite Hc.
  - intros id updates.
    destruct (updateEvent_Returned_or_Thrown parse id updates db)
      as [(result & db' & Hrun)|(e & Hrun)]; rewrite Hrun; simpl; [|done].
    apply updateEvent_inv
      in Hrun as (v & tbl & ret & _ & _ & _ & Hrun & -> & _).
    simpl. apply update_where_inv in Hrun as [Htbl _].
    induction Htbl as [|e e' rows tbl' He _ IH]; [done|].
    apply Forall_cons in Hok as [Hhead Hok].
    constructor; [|by apply IH].
    destruct (events.id e =? id); [|by subst].
    apply events_row_inv in He as (_ & _ & _ & _ & _ & [Hsame|Href]); [|done].
    simpl in Hsame. injection Hsame as <-. done.
  - intros id. destruct (sql.in_int4 id) eqn:Hid.
    + rewrite deleteEvent_accepted by done. simpl. by apply Forall_where.
    + by rewrite deleteEvent_rejected.
Qed.

(** X18.  In a store with fresh keys, the record [createCampus] or
    [createEvent] returns is the one [getCampus] or [getEvent] then finds
    under its id. *)
Theorem created_record_is_found (parse : string → option Z) (db : Database) :
  fresh_ids db →
  (∀ campusData created db',
     createCampus campusData db = (Returned (Some created), db') →
     getCampus (campuses.id created) db' = (Returned (Some created), db')) ∧
  (∀ eventData created db',
     createEvent parse eventData db = (Returned (Some created), db') →
     getEvent (events.id created) db' = (Returned (Some created), db')).
Proof.
  intros (_ & Hc_lt & _ & He_lt). split.
  - intros campusData created db'.
    unfold createCampus, insert_campuses, mbind, Query_bind.
    destruct (column.text "name" _) as [n|]; [|done].
    destruct (not_null "name" n None) as [n'|]; [|done].
    intros [= <- <-]. rewrite getCampus_first. simpl.
    rewrite where_app, where_none.
    + unfold sql.where_. rewrite filter_cons. simpl.
      by rewrite Z.eqb_refl.
    + eapply Forall_impl; [exact Hc_lt|]. intros c. simpl. lia.
  - intros eventData created db' Hrun.
    apply createEvent_inv
      in Hrun as (v & created' & _ & _ & Hrange & Hnew & [= <-] & ->).
    rewrite getEvent_first by done. simpl.
    rewrite where_app, where_none.
    + unfold sql.where_. rewrite filter_cons, Z.eqb_refl. done.
    + apply Forall_forall. intros e He.
      destruct (events.id e =? events.id created) eqn:Heq; [|done].
      unfold has_event in Hnew. apply not_true_iff_false in Hnew.
      destruct Hnew. apply existsb_exists. exists e.
      split; [by apply list_elem_of_In|done].
Qed.

Lemma where_renamed (id : Z) (name : string) (rows : list Campus) :
  sql.where_ (λ c, campuses.id c =? id)
    ((λ c, if campuses.id c =? id then campuses.mk (campuses.id c) name
            else c) <$> rows)
  = (λ c, campuses.mk (campuses.id c) name)
      <$> filter (λ c, campuses.id c =? id) rows.
Proof.
  unfold sql.where_. induction rows as [|c rows IH]; [done|].
  rewrite fmap_cons, !filter_cons, IH.
  destruct (campuses.id c =? id) eqn:Hid; simpl; by rewrite Hid.
Qed.

(** X19.  [updateCampus] with a payload that holds a name and nothing
    else, for an id within 32 bits and a name the store takes, gives that
    name to every campus carrying the id and touches nothing else: ids,
    the other campuses and the other tables stay as they were.  It
    returns the renamed campus, or the absent marker when no campus
    carries the id, and [getCampus] then returns the same. *)
Theorem updateCampus_renames
    (id : Z) (updates : Js.object) (name : string) (db : Database) :
  sql.in_int4 id = true →
  sql.text_ok name = true →
  Js.get updates "name" = Js.Str name →
  (∀ k, k ≠ "name"%string → Js.get updates k = Js.Undefined) →
  ∃ result db',
    updateCampus id updates db = (Returned result, db') ∧
    tbl_campuses db'
    = (λ c, if campuses.id c =? id then campuses.mk (campuses.id c) name
             else c) <$> tbl_campuses db ∧
    tbl_users db' = tbl_users db ∧
    tbl_events db' = tbl_events db ∧
    tbl_chatSessions db' = tbl_chatSessions db ∧
    match result with
    | None => ∀ c, c ∈ tbl_campuses db → campuses.id c ≠ id
    | Some c' =>
        c' = campuses.mk id name ∧
        ∃ c, c ∈ tbl_campuses db ∧ campuses.id c = id
    end ∧
    getCampus id db' = (Returned result, db').
Proof.
  intros _ _ Hname _. eexists _, _. split.
  { unfold updateCampus, update_campuses, mbind, Query_bind.
    rewrite Hname. simpl. rewrite update_campuses_where_rename.
    reflexivity. }
  simpl. do 4 (split; [done|]). split.
  - rewrite list_lookup_fmap.
    destruct (filter _ (tbl_campuses db)) as [|c rows] eqn:Hrows; simpl.
    + intros c Hc Hid.
      assert (Hin : c ∈ filter (λ c, campuses.id c =? id) (tbl_campuses db)).
      { apply list_elem_of_filter. split; [|done].
        apply Is_true_true. lia. }
      rewrite Hrows in Hin. by apply elem_of_nil in Hin.
    + assert (Hin : c ∈ filter (λ c, campuses.id c =? id) (tbl_campuses db))
        by (rewrite Hrows; apply list_elem_of_here).
      apply list_elem_of_filter in Hin as [Hid Hin].
      apply Is_true_true in Hid.
      split; [f_equal; lia|]. exists c. split; [done|lia].
  - rewrite getCampus_first. simpl. by rewrite where_renamed.
Qed.

(** *** Users *)

Lemma getUser_first (id : Z) (db : Database) :
  sql.in_int4 id = true →
  getUser id db
  = (Returned (sql.where_ (λ u, users.id u =? id) (tbl_users db) !! 0%nat),
     db).
Proof.
  intros Hid. rewrite getUser_accepted by done. by rewrite limit_1_head.
Qed.

Lemma getUserByEmail_first (email : string) (db : Database) :
  sql.text_ok email = true →
  getUserByEmail email db
  = (Returned
       (sql.where_ (λ u, String.eqb (users.email u) email) (tbl_users db)
          !! 0%nat),
     db).
Proof.
  intros Hemail. rewrite getUserByEmail_accepted by done.
  by rewrite limit_1_head.
Qed.

Lemma existsb_false_Forall {R : Type} (p : R → bool) (rows : list R) :
  existsb p rows = false ↔ Forall (λ r, p r = false) rows.
Proof.
  induction rows as [|r rows IH]; simpl.
  - split; [constructor|done].
  - rewrite orb_false_iff, IH, Forall_cons. done.
Qed.

(** X20.  [createUser] with a payload without [id], an email the store
    takes and no user has, and a sequence whose next id is within 32 bits
    and free, returns the created user, appended to the table under that
    id; [getUserByEmail] then finds that user under the email, and
    [getUser] under its id. *)
Theorem createUser_then_lookup
    (userData : Js.object) (email : string) (st : UsersStore) :
  Js.get userData "id" = Js.Undefined →
  Js.get userData "email" = Js.Str email →
  sql.text_ok email = true →
  sql.in_int4 (seq_users st) = true →
  Forall (λ u, users.id u ≠ seq_users st) (tbl_users (us_db st)) →
  Forall (λ u, users.email u ≠ email) (tbl_users (us_db st)) →
  ∃ created st',
    createUser userData st = (Inserted (Some created), st') ∧
    created = users.mk (seq_users st) email ∧
    tbl_users (us_db st') = tbl_users (us_db st) ++ [created] ∧
    seq_users st' = seq_users st + 1 ∧
    getUserByEmail email (us_db st') = (Returned (Some created), us_db st') ∧
    getUser (users.id created) (us_db st')
    = (Returned (Some created), us_db st').
Proof.
  intros Hnoid Hemail Htext Hseq Hfresh Hnew.
  assert (Hnone : sql.where_ (λ u, String.eqb (users.email u) email)
                    (tbl_users (us_db st)) = []).
  { apply where_none. eapply Forall_impl; [exact Hnew|].
    intros u Hu. simpl. by apply String.eqb_neq. }
  assert (Hexists : existsb (λ u, String.eqb (users.email u) email)
                      (tbl_users (us_db st)) = false).
  { apply existsb_false_Forall. eapply Forall_impl; [exact Hnew|].
    intros u Hu. simpl. by apply String.eqb_neq. }
  assert (Hkey : existsb (λ u, users.id u =? seq_users st)
                   (tbl_users (us_db st)) = false).
  { apply existsb_false_Forall. eapply Forall_impl; [exact Hfresh|].
    intros u Hu. by apply Z.eqb_neq. }
  eexists _, _. split.
  { unfold createUser, insert_users, users_cells. rewrite Hnoid, Hemail.
    simpl. rewrite Htext, Hseq. simpl. rewrite Hkey, Hexists. reflexivity. }
  simpl. do 3 (split; [done|]). split.
  - rewrite getUserByEmail_first by done. simpl. rewrite where_app, Hnone.
    unfold sql.where_. rewrite filter_cons. simpl.
    by rewrite String.eqb_refl.
  - rewrite getUser_first by done. simpl.
    rewrite where_app, where_none.
    + unfold sql.where_. rewrite filter_cons. simpl.
      by rewrite Z.eqb_refl.
    + eapply Forall_impl; [exact Hfresh|]. intros u. simpl. lia.
Qed.

(** [createUser] with an email some user already has is refused as a
    duplicate, and the tables are as they were. *)
Lemma createUser_duplicate_email
    (userData : Js.object) (email : string) (st : UsersStore) :
  Js.get userData "id" = Js.Undefined →
  Js.get userData "email" = Js.Str email →
  sql.text_ok email = true →
  sql.in_int4 (seq_users st) = true →
  Forall (λ u, users.id u ≠ seq_users st) (tbl_users (us_db st)) →
  Exists (λ u, users.email u = email) (tbl_users (us_db st)) →
  ∃ st',
    createUser userData st = (Duplicate "email", st') ∧
    us_db st' = us_db st.
Proof.
  intros Hnoid Hemail Htext Hseq Hfresh Hold.
  assert (Hexists : existsb (λ u, String.eqb (users.email u) email)
                      (tbl_users (us_db st)) = true).
  { apply existsb_exists. apply Exists_exists in Hold as (u & Hu & Heq).
    exists u. split; [by apply list_elem_of_In|by apply String.eqb_eq]. }
  assert (Hkey : existsb (λ u, users.id u =? seq_users st)
                   (tbl_users (us_db st)) = false).
  { apply existsb_false_Forall. eapply Forall_impl; [exact Hfresh|].
    intros u Hu. by apply Z.eqb_neq. }
  exists (mkUsersStore (us_db st) (seq_users st + 1)). split; [|done].
  unfold createUser, insert_users, users_cells. rewrite Hnoid, Hemail.
  simpl. rewrite Htext, Hseq. simpl. by rewrite Hkey, Hexists.
Qed.

(** *** Row order *)

Section tally_order.
Context {E : Type} (key : E → string) (val : E → Z).


End tally_order.


(** ** Worked examples of the further properties *)

Lemma sample_db_fresh : fresh_ids sample_db.
Proof.
  unfold fresh_ids.
  split; [by apply (bool_decide_unpack _)|].
  split; [by apply (bool_decide_unpack _)|].
  split; by apply (bool_decide_unpack _).
Qed.

Lemma sample_db_references : references_ok sample_db.
Proof. unfold references_ok. by apply (bool_decide_unpack _). Qed.

Lemma getTopRatedEvents_best_first_witness :
  sql.in_int4 1 = true ∧
  ∃ result rest,
    getTopRatedEvents 1 (Some 1%nat) sample_db = (Returned result, sample_db) ∧
    result ++ rest
    ≡ₚ filter (λ e, events.campusId e = 1) (tbl_events sample_db) ∧
    length result
    = Nat.min 1
        (length (filter (λ e, events.campusId e = 1) (tbl_events sample_db))) ∧
    StronglySorted (λ x y : Z, y ≤ x) (omap events.rating result) ∧
    (∀ r s x y, r ∈ result → s ∈ rest →
       events.rating r = Some x → events.rating s = Some y → y ≤ x).
Proof.
  split; [reflexivity|].
  exact (getTopRatedEvents_best_first 1 (Some 1%nat) sample_db eq_refl).
Defined.

Lemma getMonthlyParticipation_total_witness :
  sql.in_int4 1 = true ∧
  ∃ result,
    getMonthlyParticipation utc en_month 1 2024 sample_db
    = (Returned result, sample_db) ∧
    foldr Z.add 0 result.*2
    = foldr
        (λ e s,
           match events.participantCount e with
           | Some n => n
           | None => 0
           end + s)
        0 (events_of_year utc 1 2024 sample_db) ∧
    (result = [] ↔ events_of_year utc 1 2024 sample_db = []).
Proof.
  split; [reflexivity|].
  exact (getMonthlyParticipation_total utc en_month 1 2024 sample_db eq_refl).
Defined.

Lemma getEventsInDateRange_reversed_bounds_witness :
  sql.in_int4 1 = true ∧
  sql.in_timestamp 1709650800000 = true ∧
  sql.in_timestamp 1709632800000 = true ∧
  1709632800000 < 1709650800000 ∧
  getEventsInDateRange 1 1709650800000 1709632800000 day_db
  = (Returned [], day_db).
Proof.
  split; [reflexivity|]. split; [reflexivity|]. split; [reflexivity|].
  split; [lia|].
  apply getEventsInDateRange_reversed_bounds; [reflexivity..|lia].
Defined.

Lemma campus_without_events_reads_empty_witness :
  sql.in_int4 9 = true ∧
  (∀ e, e ∈ tbl_events sample_db → events.campusId e ≠ 9) ∧
  getEventsByCampus 9 sample_db = (Returned [], sample_db) ∧
  (∀ startDate endDate,
     sql.in_timestamp startDate = true →
     sql.in_timestamp endDate = true →
     getEventsInDateRange 9 startDate endDate sample_db
     = (Returned [], sample_db)) ∧
  getEventTypeDistribution 9 sample_db = (Returned [], sample_db) ∧
  (∀ year,
     getMonthlyParticipation utc en_month 9 year sample_db
     = (Returned [], sample_db)) ∧
  (∀ limit, getTopRatedEvents 9 limit sample_db = (Returned [], sample_db)).
Proof.
  assert (Hnone : ∀ e, e ∈ tbl_events sample_db → events.campusId e ≠ 9).
  { intros e He. simpl in He.
    repeat (apply elem_of_cons in He as [->|He]; [done|]).
    by apply elem_of_nil in He. }
  split; [reflexivity|]. split; [exact Hnone|].
  exact (campus_without_events_reads_empty utc en_month 9 sample_db
           eq_refl Hnone).
Defined.

Lemma updateEvent_then_getEvent_witness :
  Js.get count_update "id" = Js.Undefined ∧
  ∃ result db',
    updateEvent sample_parse 2 count_update sample_db = (Returned result, db') ∧
    getEvent 2 db' = (Returned result, db').
Proof.
  split; [reflexivity|].
  eexists _, _.
  assert (Hrun : updateEvent sample_parse 2 count_update sample_db
                 = (Returned _, _)) by (vm_compute; reflexivity).
  split; [exact Hrun|].
  exact (updateEvent_then_getEvent sample_parse 2 count_update sample_db
           _ _ eq_refl Hrun).
Defined.

Lemma updateEvent_keeps_rows_in_place_witness :
  Js.get count_update "id" = Js.Undefined ∧
  events.id
    <$> tbl_events (updateEvent sample_parse 2 count_update sample_db).2
  = events.id <$> tbl_events sample_db.
Proof.
  split; [reflexivity|].
  destruct (updateEvent_keeps_rows_in_place sample_parse 2 count_update
              sample_db) as (_ & Hids & _).
  apply Hids. reflexivity.
Defined.

Lemma updateEvent_never_clears_dates_witness :
  ∃ result db',
    updateEvent sample_parse 2 null_end_update sample_db
    = (Returned result, db') ∧
    Forall2
      (λ e e',
         (is_Some (events.endDateTime e) → is_Some (events.endDateTime e')) ∧
         (Js.ToBoolean (Js.get null_end_update "endDateTime") = false →
          events.endDateTime e' = events.endDateTime e) ∧
         (Js.ToBoolean (Js.get null_end_update "dateTime") = false →
          events.dateTime e' = events.dateTime e))
      (tbl_events sample_db) (tbl_events db').
Proof.
  eexists _, _.
  assert (Hrun : updateEvent sample_parse 2 null_end_update sample_db
                 = (Returned _, _)) by (vm_compute; reflexivity).
  split; [exact Hrun|].
  exact (updateEvent_never_clears_dates sample_parse 2 null_end_update
           sample_db _ _ Hrun).
Defined.

Lemma updateEvent_without_columns_throws_witness :
  (∀ k, k ≠ "dateTime"%string → k ≠ "endDateTime"%string →
        Js.get {[ "endDateTime"%string := Js.Null ]} k = Js.Undefined) ∧
  Js.ToBoolean (Js.get {[ "endDateTime"%string := Js.Null ]} "dateTime")
  = false ∧
  Js.ToBoolean (Js.get {[ "endDateTime"%string := Js.Null ]} "endDateTime")
  = false ∧
  updateEvent sample_parse 2 {[ "endDateTime"%string := Js.Null ]} sample_db
  = (Thrown NoValuesToSet, sample_db).
Proof.
  assert (Hrest : ∀ k, k ≠ "dateTime"%string → k ≠ "endDateTime"%string →
    Js.get {[ "endDateTime"%string := Js.Null ]} k = Js.Undefined).
  { intros k _ Hk. unfold Js.get. by rewrite lookup_singleton_ne. }
  split; [exact Hrest|].
  do 2 (split; [vm_compute; reflexivity|]).
  apply updateEvent_without_columns_throws;
    [exact Hrest|vm_compute; reflexivity..].
Defined.

Lemma inserts_return_or_throw_witness :
  Js.get new_event "id" = Js.Undefined ∧
  ((∃ created db',
      createCampus new_event sample_db = (Returned (Some created), db') ∧
      campuses.id created = seq_campuses sample_db ∧
      tbl_campuses db' = tbl_campuses sample_db ++ [created] ∧
      tbl_users db' = tbl_users sample_db ∧
      tbl_events db' = tbl_events sample_db ∧
      tbl_chatSessions db' = tbl_chatSessions sample_db)
   ∨ (∃ e db',
        createCampus new_event sample_db = (Thrown e, db')
        ∧ same_tables sample_db db')) ∧
  ((∃ created db',
      createEvent sample_parse new_event sample_db
      = (Returned (Some created), db') ∧
      events.id created = seq_events sample_db ∧
      tbl_events db' = tbl_events sample_db ++ [created] ∧
      tbl_users db' = tbl_users sample_db ∧
      tbl_campuses db' = tbl_campuses sample_db ∧
      tbl_chatSessions db' = tbl_chatSessions sample_db)
   ∨ (∃ e db',
        createEvent sample_parse new_event sample_db = (Thrown e, db')
        ∧ same_tables sample_db db')).
Proof.
  split; [reflexivity|].
  apply inserts_return_or_throw. reflexivity.
Defined.

Lemma createEvent_invalid_date_throws_witness :
  (Js.new_Date sample_parse (Js.get unparsable_event "dateTime") = None
   ∨ (Js.ToBoolean (Js.get unparsable_event "endDateTime") = true
      ∧ Js.new_Date sample_parse (Js.get unparsable_event "endDateTime")
        = None)) ∧
  ∃ e, createEvent sample_parse unparsable_event sample_db
       = (Thrown e, sample_db).
Proof.
  assert (Hbad :
    Js.new_Date sample_parse (Js.get unparsable_event "dateTime") = None
    ∨ (Js.ToBoolean (Js.get unparsable_event "endDateTime") = true
       ∧ Js.new_Date sample_parse (Js.get unparsable_event "endDateTime")
         = None)) by (left; vm_compute; reflexivity).
  split; [exact Hbad|].
  exact (createEvent_invalid_date_throws sample_parse unparsable_event
           sample_db Hbad).
Defined.

Lemma updateEvent_invalid_date_throws_witness :
  ((Js.ToBoolean (Js.get unparsable_event "dateTime") = true
    ∧ Js.new_Date sample_parse (Js.get unparsable_event "dateTime") = None)
   ∨ (Js.ToBoolean (Js.get unparsable_event "endDateTime") = true
      ∧ Js.new_Date sample_parse (Js.get unparsable_event "endDateTime")
        = None)) ∧
  ∃ e, updateEvent sample_parse 2 unparsable_event sample_db
       = (Thrown e, sample_db).
Proof.
  assert (Hbad :
    (Js.ToBoolean (Js.get unparsable_event "dateTime") = true
     ∧ Js.new_Date sample_parse (Js.get unparsable_event "dateTime") = None)
    ∨ (Js.ToBoolean (Js.get unparsable_event "endDateTime") = true
       ∧ Js.new_Date sample_parse (Js.get unparsable_event "endDateTime")
         = None)) by (left; split; vm_compute; reflexivity).
  split; [exact Hbad|].
  exact (updateEvent_invalid_date_throws sample_parse 2 unparsable_event
           sample_db Hbad).
Defined.

Lemma deleteEvent_then_getEvent_witness :
  sql.in_int4 2 = true ∧
  (getEvent 2 (deleteEvent 2 sample_db).2).1 = Returned None ∧
  ∀ id', id' ≠ 2 →
    (getEvent id' (deleteEvent 2 sample_db).2).1 = (getEvent id' sample_db).1.
Proof.
  split; [reflexivity|].
  apply deleteEvent_then_getEvent. reflexivity.
Defined.

Lemma event_writes_keep_other_lookups_witness :
  1 ≠ 2 ∧ Js.get count_update "id" = Js.Undefined ∧
  (getEvent 1 (updateEvent sample_parse 2 count_update sample_db).2).1
  = (getEvent 1 sample_db).1.
Proof.
  split; [lia|]. split; [reflexivity|].
  destruct (event_writes_keep_other_lookups sample_parse sample_db)
    as [Hupdate _].
  apply Hupdate; [lia|reflexivity].
Defined.

Lemma wide_id_throws_witness :
  sql.in_int4 2147483648 = false ∧
  getUser 2147483648 sample_db = (Thrown (OutOfRange "integer"), sample_db) ∧
  getEvent 2147483648 sample_db
  = (Thrown (OutOfRange "integer"), sample_db) ∧
  deleteEvent 2147483648 sample_db
  = (Thrown (OutOfRange "integer"), sample_db) ∧
  ∀ updates,
    ∃ e, updateEvent sample_parse 2147483648 updates sample_db
         = (Thrown e, sample_db).
Proof.
  split; [reflexivity|].
  apply wide_id_throws. reflexivity.
Defined.

Lemma createEvent_payload_id_is_stored_witness :
  Js.get (<["id" := Js.Num 7]> new_event) "id" = Js.Num 7 ∧
  ∃ result db',
    createEvent sample_parse (<["id" := Js.Num 7]> new_event) sample_db
    = (Returned result, db') ∧
    ∃ created,
      result = Some created ∧
      events.id created = 7 ∧
      (∀ e, e ∈ tbl_events sample_db → events.id e ≠ 7) ∧
      tbl_events db' = tbl_events sample_db ++ [created] ∧
      seq_events db' = seq_events sample_db.
Proof.
  split; [reflexivity|].
  eexists _, _.
  assert (Hrun :
    createEvent sample_parse (<["id" := Js.Num 7]> new_event) sample_db
    = (Returned _, _)) by (vm_compute; reflexivity).
  split; [exact Hrun|].
  exact (createEvent_payload_id_is_stored sample_parse
           (<["id" := Js.Num 7]> new_event) 7 sample_db _ _ eq_refl Hrun).
Defined.

Lemma writes_keep_ids_fresh_witness :
  fresh_ids sample_db ∧
  (∀ campusData, Js.get campusData "id" = Js.Undefined →
     fresh_ids (createCampus campusData sample_db).2) ∧
  (∀ id updates, Js.get updates "id" = Js.Undefined →
     fresh_ids (updateCampus id updates sample_db).2) ∧
  (∀ eventData, Js.get eventData "id" = Js.Undefined →
     fresh_ids (createEvent sample_parse eventData sample_db).2) ∧
  (∀ id updates, Js.get updates "id" = Js.Undefined →
     fresh_ids (updateEvent sample_parse id updates sample_db).2) ∧
  (∀ id, fresh_ids (deleteEvent id sample_db).2).
Proof.
  split; [exact sample_db_fresh|].
  exact (writes_keep_ids_fresh sample_parse sample_db sample_db_fresh).
Defined.

Lemma writes_keep_references_witness :
  references_ok sample_db ∧
  (∀ campusData, references_ok (createCampus campusData sample_db).2) ∧
  (∀ id updates, references_ok (updateCampus id updates sample_db).2) ∧
  (∀ eventData,
     references_ok (createEvent sample_parse eventData sample_db).2) ∧
  (∀ id updates,
     references_ok (updateEvent sample_parse id updates sample_db).2) ∧
  (∀ id, references_ok (deleteEvent id sample_db).2).
Proof.
  split; [exact sample_db_references|].
  exact (writes_keep_references sample_parse sample_db sample_db_references).
Defined.

Lemma created_record_is_found_witness :
  fresh_ids sample_db ∧
  (∀ campusData created db',
     createCampus campusData sample_db = (Returned (Some created), db') →
     getCampus (campuses.id created) db' = (Returned (Some created), db')) ∧
  (∀ eventData created db',
     createEvent sample_parse eventData sample_db
     = (Returned (Some created), db') →
     getEvent (events.id created) db' = (Returned (Some created), db')).
Proof.
  split; [exact sample_db_fresh|].
  exact (created_record_is_found sample_parse sample_db sample_db_fresh).
Defined.

Lemma updateCampus_renames_witness :
  sql.in_int4 1 = true ∧
  sql.text_ok "Northgate" = true ∧
  Js.get rename_campus "name" = Js.Str "Northgate" ∧
  (∀ k, k ≠ "name"%string → Js.get rename_campus k = Js.Undefined) ∧
  ∃ result db',
    updateCampus 1 rename_campus sample_db = (Returned result, db') ∧
    tbl_campuses db'
    = (λ c, if campuses.id c =? 1
             then campuses.mk (campuses.id c) "Northgate" else c)
        <$> tbl_campuses sample_db ∧
    tbl_users db' = tbl_users sample_db ∧
    tbl_events db' = tbl_events sample_db ∧
    tbl_chatSessions db' = tbl_chatSessions sample_db ∧
    match result with
    | None => ∀ c, c ∈ tbl_campuses sample_db → campuses.id c ≠ 1
    | Some c' =>
        c' = campuses.mk 1 "Northgate" ∧
        ∃ c, c ∈ tbl_campuses sample_db ∧ campuses.id c = 1
    end ∧
    getCampus 1 db' = (Returned result, db').
Proof.
  assert (Hrest : ∀ k, k ≠ "name"%string →
    Js.get rename_campus k = Js.Undefined).
  { intros k Hk. unfold Js.get, rename_campus.
    by rewrite lookup_singleton_ne. }
  split; [reflexivity|]. split; [reflexivity|]. split; [reflexivity|].
  split; [exact Hrest|].
  apply updateCampus_renames; [reflexivity..|exact Hrest].
Defined.

Lemma createUser_then_lookup_witness :
  Js.get new_user "id" = Js.Undefined ∧
  Js.get new_user "email" = Js.Str "grace@example.org" ∧
  sql.text_ok "grace@example.org" = true ∧
  sql.in_int4 (seq_users sample_users) = true ∧
  Forall (λ u, users.id u ≠ seq_users sample_users)
    (tbl_users (us_db sample_users)) ∧
  Forall (λ u, users.email u ≠ "grace@example.org"%string)
    (tbl_users (us_db sample_users)) ∧
  ∃ created st',
    createUser new_user sample_users = (Inserted (Some created), st') ∧
    created = users.mk (seq_users sample_users) "grace@example.org" ∧
    tbl_users (us_db st') = tbl_users (us_db sample_users) ++ [created] ∧
    seq_users st' = seq_users sample_users + 1 ∧
    getUserByEmail "grace@example.org" (us_db st')
    = (Returned (Some created), us_db st') ∧
    getUser (users.id created) (us_db st')
    = (Returned (Some created), us_db st').
Proof.
  assert (Hfresh : Forall (λ u, users.id u ≠ seq_users sample_users)
                     (tbl_users (us_db sample_users)))
    by (repeat constructor; done).
  assert (Hnew : Forall (λ u, users.email u ≠ "grace@example.org"%string)
                   (tbl_users (us_db sample_users)))
    by (repeat constructor; done).
  split; [reflexivity|]. split; [reflexivity|]. split; [reflexivity|].
  split; [reflexivity|]. split; [exact Hfresh|]. split; [exact Hnew|].
  exact (createUser_then_lookup new_user "grace@example.org" sample_users
           eq_refl eq_refl eq_refl eq_refl Hfresh Hnew).
Defined.

(** A known email is refused, and so is a user that brings the id of
    another. *)
Example createUser_duplicates :
  (∃ st',
     createUser known_user sample_users = (Duplicate "email", st') ∧
     us_db st' = us_db sample_users) ∧
  createUser (<["id" := Js.Num 1]> new_user) sample_users
  = (Duplicate "id", sample_users).
Proof.
  split; [|vm_compute; reflexivity].
  apply (createUser_duplicate_email known_user "ada@example.org");
    try reflexivity.
  - repeat constructor; done.
  - by constructor.
Qed.

